(** * ai-video-gen: the script editor, the preference pages and the pipeline pages

    A shallow embedding of the TypeScript front end of the video generator
    (the undo/redo hook, the structured script editor, the preference
    management page, the narration and compose pages) and of the SQL
    constraints of its tables, with the properties its specification states
    about them.

    JavaScript values are modelled as follows: a [number] that counts or
    indexes is a [Z] (or a [nat] where the code can only produce a valid
    index), a [number] that measures (a confidence, a duration) is an IEEE
    binary64 [float], an array is a [list], a [Set<number>] is a [gset], a
    [Record<string, unknown>] is a [gmap] from strings, an optional field is
    an [option]. A string whose length or characters the code reads (the
    narration of a section, the theme of a project) is the list of its
    UTF-16 code units; a string that the code only compares, copies, joins
    or splits at a line feed is a [string] holding its text. *)

From Stdlib Require Import ZArith Floats.
From stdpp Require Import base list gmap strings pretty sorting.

Local Open Scope Z_scope.

(** Decimal literals such as [0.85] denote the nearest binary64 number, as
    they do in JavaScript. *)
Set Warnings "-inexact-float,-register-all".

(** ** JavaScript array primitives *)

Module Js.

Section Arrays.
Context {T : Type}.

(** The index an argument of [slice] or [splice] denotes in an array of
    [len] elements: a negative one counts from the end, and the result is
    clamped to [0 .. len]. *)
Definition rel_index (len : nat) (i : Z) : nat :=
  if i <? 0 then Z.to_nat (Z.max (Z.of_nat len + i) 0)
  else Z.to_nat (Z.min i (Z.of_nat len)).

(** [array.slice(start, end)] *)
Definition slice (l : list T) (start end_ : Z) : list T :=
  let from := rel_index (length l) start in
  let to := rel_index (length l) end_ in
  take (to - from)%nat (drop from l).

(** [array.slice(start)] *)
Definition slice_from (l : list T) (start : Z) : list T :=
  drop (rel_index (length l) start) l.

(** [array.splice(start, deleteCount, ...items)]: the array after the call
    and the array of removed elements it returns. *)
Definition splice (l : list T) (start deleteCount : Z) (items : list T)
  : list T * list T :=
  let from := rel_index (length l) start in
  let dc := Z.to_nat (Z.max 0 (Z.min deleteCount (Z.of_nat (length l - from)%nat))) in
  (take from l ++ items ++ drop (from + dc)%nat l, take dc (drop from l)).

(** [array.indexOf(x)]: the first position of [x], or [-1]. *)
Fixpoint indexOf_from `{EqDecision T} (l : list T) (x : T) (i : Z) : Z :=
  match l with
  | [] => -1
  | y :: l' => if decide (y = x) then i else indexOf_from l' x (i + 1)
  end.

Definition indexOf `{EqDecision T} (l : list T) (x : T) : Z :=
  indexOf_from l x 0.

(** [array.map((x, i) => f(x, i))] *)
Fixpoint mapi_from {U : Type} (f : T -> nat -> U) (l : list T) (i : nat) : list U :=
  match l with
  | [] => []
  | x :: l' => f x i :: mapi_from f l' (S i)
  end.

Definition mapi {U : Type} (f : T -> nat -> U) (l : list T) : list U :=
  mapi_from f l 0.

(** [array.filter((x, i) => p(x, i))] *)
Fixpoint filteri_from (p : T -> nat -> bool) (l : list T) (i : nat) : list T :=
  match l with
  | [] => []
  | x :: l' =>
      if p x i then x :: filteri_from p l' (S i) else filteri_from p l' (S i)
  end.

Definition filteri (p : T -> nat -> bool) (l : list T) : list T :=
  filteri_from p l 0.
End Arrays.

End Js.

(** ** The undo/redo hook ([hooks/useUndoRedo.ts]) *)

Module UndoRedo.

Section Hook.
Context {T : Type}.

(** The three pieces of React state the hook keeps. *)
Record History : Type := mkHistory {
  past : list T;
  present : T;
  future : list T
}.

(** [options.maxHistory], 10 when the caller gives none. *)
Definition default_maxHistory : Z := 10.

Definition useUndoRedo (initialState : T) : History :=
  {| past := []; present := initialState; future := [] |}.

Definition setState (maxHistory : Z) (newState : T) (h : History) : History :=
  let newPast := past h ++ [present h] in
  {| past :=
       if maxHistory <? Z.of_nat (length newPast)
       then Js.slice_from newPast (Z.of_nat (length newPast) - maxHistory)
       else newPast;
     present := newState;
     future := [] |}.

Definition undo (h : History) : History :=
  if Z.of_nat (length (past h)) =? 0 then h
  else
    match past h !! (length (past h) - 1)%nat with
    | Some previous =>
        {| past := Js.slice (past h) 0 (Z.of_nat (length (past h)) - 1);
           present := previous;
           future := present h :: future h |}
    | None => h
    end.

Definition redo (h : History) : History :=
  if Z.of_nat (length (future h)) =? 0 then h
  else
    match future h !! 0%nat with
    | Some next =>
        {| past := past h ++ [present h];
           present := next;
           future := Js.slice_from (future h) 1 |}
    | None => h
    end.

Definition reset (newInitialState : T) (h : History) : History :=
  {| past := []; present := newInitialState; future := [] |}.

(** What a caller of the hook can do with it. *)
Inductive action : Type :=
| SetState (newState : T)
| Undo
| Redo
| Reset (newInitialState : T).

Definition step (maxHistory : Z) (h : History) (a : action) : History :=
  match a with
  | SetState s => setState maxHistory s h
  | Undo => undo h
  | Redo => redo h
  | Reset s => reset s h
  end.

Definition run (maxHistory : Z) (initialState : T) (acts : list action) : History :=
  foldl (step maxHistory) (useUndoRedo initialState) acts.

(** Every operation of the hook keeps the two stacks together within
    [maxHistory]: [undo] and [redo] move one entry from one stack to the
    other, [setState] trims the past and empties the future. *)
Definition within (maxHistory : Z) (h : History) : Prop :=
  Z.of_nat (length (past h) + length (future h)) <= maxHistory.

(** The states the hook holds, oldest first: the past, the present and the
    future. *)
Definition timeline (h : History) : list T := past h ++ present h :: future h.

Definition canUndo (h : History) : bool := 0 <? Z.of_nat (length (past h)).
Definition canRedo (h : History) : bool := 0 <? Z.of_nat (length (future h)).
End Hook.

Arguments History : clear implicits.
Arguments action : clear implicits.

(** *** The keyboard shortcuts ([useUndoRedoKeyboard]) *)

(** The fields of a [KeyboardEvent] the listener reads. *)
Record KeyboardEvent : Type := {
  ctrlKey : bool;
  metaKey : bool;
  shiftKey : bool;
  key : string
}.

(** What the listener calls. *)
Inductive ShortcutCall : Type :=
| CallUndo
| CallRedo.

(** [handleKeyDown]: the calls it makes, in order. The two [if] statements
    follow each other, so an event could in principle pass both. *)
Definition handleKeyDown (e : KeyboardEvent) : list ShortcutCall :=
  (if (ctrlKey e || metaKey e) && String.eqb (key e) "z" && negb (shiftKey e)
   then [CallUndo] else [])
  ++
  (if ((ctrlKey e || metaKey e) && String.eqb (key e) "z" && shiftKey e)
      || ((ctrlKey e || metaKey e) && String.eqb (key e) "y")
   then [CallRedo] else []).

(** [useUndoRedoKeyboard(undo, redo, enabled)]: no listener is installed
    unless [enabled]. *)
Definition useUndoRedoKeyboard (enabled : bool) (e : KeyboardEvent) : list ShortcutCall :=
  if enabled then handleKeyDown e else [].

(** The hook state after the calls of the listener. *)
Definition shortcut {T : Type} (h : History T) (c : ShortcutCall) : History T :=
  match c with
  | CallUndo => undo h
  | CallRedo => redo h
  end.

End UndoRedo.

(** ** The confidence badge of the preference page ([ConfidenceBadge]) *)

Module Confidence.

Local Open Scope float_scope.

(** The three colour classes the badge can take. *)
Definition green : string := "bg-green-100 text-green-800".
Definition yellow : string := "bg-yellow-100 text-yellow-800".
Definition gray : string := "bg-gray-100 text-gray-600".

(** The [colorClass] the badge computes for a confidence: [confidence >= 0.85]
    is [0.85 <= confidence] on binary64 numbers. The percentage shown inside
    the badge, [Math.round(confidence * 100)], plays no part in the colour and
    is left out. *)
Definition ConfidenceBadge (confidence : float) : string :=
  if 0.85 <=? confidence then green
  else if 0.5 <=? confidence then yellow
  else gray.

(** A confidence is a number of [[0, 1]]. *)
Definition in_unit_interval (c : float) : Prop :=
  (0 <=? c) = true /\ (c <=? 1) = true.

End Confidence.

(** ** Shared types ([types/index.ts]) *)

Module Types.

(** A value of type [unknown] that came out of JSON. *)
Inductive json : Type :=
| JNull
| JBool (b : bool)
| JNum (x : float)
| JStr (s : string)
| JArr (items : list json)
| JObj (fields : list (string * json)).

(** An optional string used as a condition ([s && ...], [if (s)]): absent,
    [null] and the empty string are falsy. *)
Definition truthy (s : option string) : bool :=
  match s with
  | Some x => negb (String.eqb x "")
  | None => false
  end.

Inductive ProjectState : Type :=
| init
| script_done
| visuals_done
| narration_done
| composed.

#[export] Instance ProjectState_eq_dec : EqDecision ProjectState.
Proof. solve_decision. Defined.

Inductive SectionType : Type :=
| title
| slide
| code
| code_typing
| diagram
| summary.

#[export] Instance SectionType_eq_dec : EqDecision SectionType.
Proof. solve_decision. Defined.

Record Section : Type := {
  id : string;
  project_id : string;
  section_index : Z;
  type : SectionType;
  duration : option float;
  narration : option string;
  visual_spec : option (gmap string json);
  slide_image_path : option string;
  narration_audio_path : option string;
  animation_video_path : option string;
  generation_prompt : option string;
  content_hash : option string;
  created_at : string;
  updated_at : string
}.

Record Project : Type := {
  project_ident : string;
  theme : string;
  state : ProjectState;
  script : option (gmap string json);
  duration_target : option float;
  project_created_at : string;
  project_updated_at : string;
  sections : list Section
}.

End Types.

(** ** The narration page and the compose page *)

Module Pipeline.
Import Types.

(** The answer of [GET /api/projects/:id/compose/status]. *)
Record ComposeStatusResponse : Type := {
  status_project_id : string;
  status_state : string;
  is_composed : bool;
  can_compose : bool;
  ffmpeg_available : bool;
  sections_count : Z;
  total_duration : float;
  estimated_size : float
}.

(** The answer of [POST /api/projects/:id/compose]. *)
Record ComposeResponse : Type := {
  response_status : string;
  video_url : option string;
  response_duration : float;
  response_sections_count : Z;
  response_estimated_size : float;
  message : option string
}.

(** What a page shows while its project query is pending, after it failed,
    and once the project is there. *)
Inductive Page (V : Type) : Type :=
| Loading
| LoadFailed
| Loaded (view : V).
Arguments Loading {V}.
Arguments LoadFailed {V}.
Arguments Loaded {V} view.

Definition render {V : Type} (isLoading : bool) (error : bool)
    (project : option Project) (body : Project -> V) : Page V :=
  if isLoading then Loading
  else
    match project with
    | Some p => if error then LoadFailed else Loaded (body p)
    | None => LoadFailed
    end.

(** *** [NarrationPage] *)

Inductive NarrationButtonLabel : Type :=
| NarrationGenerating      (* 生成中... *)
| NarrationRegenerateAll   (* 全て再生成 *)
| NarrationGenerate.       (* ナレーション生成 *)

Record NarrationButton : Type := {
  narration_label : NarrationButtonLabel;
  narration_disabled : bool
}.

Record NarrationView : Type := {
  generateButton : option NarrationButton;  (* the button that starts narration generation *)
  nextToCompose : bool;                     (* the link to the compose page *)
  visualsMissingNotice : bool;              (* 先にビジュアルを生成してください *)
  noSectionsNotice : bool;
  sectionCards : list Section;
  narrationError : bool;
  mockModeNotice : bool
}.

Definition hasVisuals (project : Project) : bool :=
  bool_decide (state project ∈ [visuals_done; narration_done; composed]).

Definition hasAudio (project : Project) : bool :=
  existsb (fun s => truthy (narration_audio_path s)) (sections project).

Definition NarrationBody (isPending isError : bool) (project : Project) : NarrationView :=
  {| generateButton :=
       if hasVisuals project then
         Some {| narration_label :=
                   if isPending then NarrationGenerating
                   else if hasAudio project then NarrationRegenerateAll
                   else NarrationGenerate;
                 narration_disabled := isPending |}
       else None;
     nextToCompose := bool_decide (state project = narration_done);
     visualsMissingNotice := negb (hasVisuals project);
     noSectionsNotice :=
       hasVisuals project && (Z.of_nat (length (sections project)) =? 0);
     sectionCards :=
       if 0 <? Z.of_nat (length (sections project)) then sections project else [];
     narrationError := isError;
     mockModeNotice := negb (hasAudio project) && hasVisuals project |}.

Definition NarrationPage (isLoading error : bool) (project : option Project)
    (isPending isError : bool) : Page NarrationView :=
  render isLoading error project (NarrationBody isPending isError).

(** *** [ComposePage] *)

Inductive ComposeButtonLabel : Type :=
| Composing      (* 合成中... *)
| Recompose      (* 再合成 *)
| ComposeVideo.  (* 動画を合成 *)

Record ComposeButton : Type := {
  compose_label : ComposeButtonLabel;
  compose_disabled : bool
}.

(** The part of the page inside [{canCompose && (...)}]; the tiles for the
    section count, the duration and the size are left out. *)
Record ComposePanel : Type := {
  ffmpegTile : string;              (* "OK" or "N/A" *)
  composeButton : ComposeButton;    (* always part of the panel *)
  downloadButton : bool;
  composeError : bool;
  videoPreview : option string;     (* the [src] of the video player *)
  ffmpegWarning : bool;             (* 注意: FFmpegがインストールされていないため ... *)
  composedMessage : bool            (* 動画合成が完了しています *)
}.

Record ComposeView : Type := {
  narrationMissingNotice : bool;    (* 先にナレーションを生成してください *)
  panel : option ComposePanel
}.

(** [status?.can_compose || project.state === "narration_done"] *)
Definition canCompose (status : option ComposeStatusResponse) (project : Project) : bool :=
  match status with
  | Some st => can_compose st
  | None => false
  end
  || bool_decide (state project = narration_done).

Definition isComposed (project : Project) : bool :=
  bool_decide (state project = composed).

Definition ComposeBody (status : option ComposeStatusResponse)
    (isPending isError : bool) (videoUrl : option string) (project : Project)
    : ComposeView :=
  {| narrationMissingNotice := negb (canCompose status project);
     panel :=
       if canCompose status project then
         Some {| ffmpegTile :=
                   if match status with Some st => ffmpeg_available st | None => false end
                   then "OK" else "N/A";
                 composeButton :=
                   {| compose_label :=
                        if isPending then Composing
                        else if isComposed project then Recompose
                        else ComposeVideo;
                      compose_disabled := isPending |};
                 downloadButton := truthy videoUrl;
                 composeError := isError;
                 videoPreview := if truthy videoUrl then videoUrl else None;
                 ffmpegWarning :=
                   match status with
                   | Some st => negb (ffmpeg_available st)
                   | None => false
                   end;
                 composedMessage := isComposed project && negb (truthy videoUrl) |}
       else None |}.

Definition ComposePage (isLoading error : bool) (project : option Project)
    (status : option ComposeStatusResponse) (isPending isError : bool)
    (videoUrl : option string) : Page ComposeView :=
  render isLoading error project (ComposeBody status isPending isError videoUrl).

(** [handleCompose]: the [videoUrl] state after the compose request, which
    either answered ([Some result]) or failed ([None], caught and logged). *)
Definition handleCompose (videoUrl : option string) (result : option ComposeResponse)
    : option string :=
  match result with
  | Some r => if truthy (video_url r) then video_url r else videoUrl
  | None => videoUrl
  end.

(** *** [VisualsPage] *)

Inductive VisualsButtonLabel : Type :=
| VisualsGenerating      (* 生成中... *)
| VisualsRegenerateAll   (* 全て再生成 *)
| VisualsGenerate.       (* スライド生成 *)

Record VisualsView : Type := {
  visualsButton : option (VisualsButtonLabel * bool);  (* label, disabled *)
  scriptMissingNotice : bool;                          (* 先に脚本を生成してください *)
  visualsNoSectionsNotice : bool;
  slidePreviews : list Section;
  visualsError : bool
}.

Definition hasScript (project : Project) : bool :=
  negb (bool_decide (state project = init)).

Definition VisualsBody (isPending isError : bool) (project : Project) : VisualsView :=
  {| visualsButton :=
       if hasScript project then
         Some (if isPending then VisualsGenerating
               else if existsb (fun s => truthy (slide_image_path s)) (sections project)
                    then VisualsRegenerateAll
                    else VisualsGenerate,
               isPending)
       else None;
     scriptMissingNotice := negb (hasScript project);
     visualsNoSectionsNotice :=
       hasScript project && (Z.of_nat (length (sections project)) =? 0);
     slidePreviews :=
       if 0 <? Z.of_nat (length (sections project)) then sections project else [];
     visualsError := isError |}.

Definition VisualsPage (isLoading error : bool) (project : option Project)
    (isPending isError : bool) : Page VisualsView :=
  render isLoading error project (VisualsBody isPending isError).

(** The [videoUrl] state after a sequence of compose requests. *)
Definition composeRuns (videoUrl : option string)
    (results : list (option ComposeResponse)) : option string :=
  foldl handleCompose videoUrl results.

End Pipeline.

(** ** The dependency graph tracker *)

Module Dag.

(** Modelled from the spec: the units of the fixed stage dependency map
    [script -> {narration, images, animations} -> composition]. The tracker
    belongs to the back end, which the front-end sources do not include. *)
Inductive PipelineUnit : Type :=
| script
| narration
| images
| animations
| composition.

#[export] Instance PipelineUnit_eq_dec : EqDecision PipelineUnit.
Proof. solve_decision. Defined.

Definition unit_code (u : PipelineUnit) : nat :=
  match u with
  | script => 0 | narration => 1 | images => 2 | animations => 3 | composition => 4
  end.

Definition unit_of_code (n : nat) : option PipelineUnit :=
  match n with
  | 0 => Some script | 1 => Some narration | 2 => Some images
  | 3 => Some animations | 4 => Some composition | _ => None
  end%nat.

#[export] Instance PipelineUnit_countable : Countable PipelineUnit.
Proof.
  apply (inj_countable unit_code unit_of_code). by intros [].
Defined.

(** Modelled from the spec: the static dependency map, "narration/images/
    animations depend on script; composition depends on all three". *)
Definition dependencies (u : PipelineUnit) : list PipelineUnit :=
  match u with
  | script => []
  | narration | images | animations => [script]
  | composition => [narration; images; animations]
  end.

(** Modelled from the spec: an order of the units in which every unit comes
    after the units it depends on. *)
Definition topologicalOrder : list PipelineUnit :=
  [script; narration; images; animations; composition].

(** Modelled from the spec: "transitively dependent". [dependsOn n u c] follows
    at most [n] edges of the map from [u] back to [c]; the map has five units,
    so five steps reach everything. *)
Fixpoint dependsOn (n : nat) (u c : PipelineUnit) : bool :=
  match n with
  | O => false
  | S n' =>
      existsb (fun d => bool_decide (d = c) || dependsOn n' d c) (dependencies u)
  end.

Definition transitivelyDependsOn (u c : PipelineUnit) : bool :=
  dependsOn (length topologicalOrder) u c.

(** Modelled from the spec: [staleFrontier(changedUnits)] "returns the
    topologically-ordered closure of all units transitively dependent on
    them". *)
Definition staleFrontier (changedUnits : gset PipelineUnit) : list PipelineUnit :=
  List.filter
    (fun u => existsb (transitivelyDependsOn u) (elements changedUnits))
    topologicalOrder.



End Dag.

(** ** Preferences: the table, the API client and the management page *)

Module Preferences.

(** *** The [preferences] table (its SQL migration) *)

(** A row of the table. [description], [category] and [scope] are [NOT NULL];
    the other columns may hold [NULL]. *)
Record PreferenceRow : Type := {
  preference_id : string;
  description : string;
  category : string;
  scope : string;
  section_type : option string;
  project_id : option string;
  confidence : option float;
  source_corrections : option (list string);
  is_active : option bool;
  prompt_version : option Z;
  created_at : string;
  updated_at : string
}.

(** [CHECK (category IN ('style', 'structural', 'content', 'technical'))] *)
Definition preferences_category_check (r : PreferenceRow) : bool :=
  bool_decide (category r ∈ ["style"; "structural"; "content"; "technical"]).

(** [CHECK (scope IN ('global', 'project', 'section_type', 'specific'))] *)
Definition preferences_scope_check (r : PreferenceRow) : bool :=
  bool_decide (scope r ∈ ["global"; "project"; "section_type"; "specific"]).

(** [CHECK (section_type IS NULL OR section_type IN ('title', ...))] *)
Definition preferences_section_type_check (r : PreferenceRow) : bool :=
  match section_type r with
  | None => true
  | Some t =>
      bool_decide (t ∈ ["title"; "slide"; "code"; "code_typing"; "diagram"; "summary"])
  end.

(** The table takes a row when all its constraints hold. *)
Definition table_accepts (r : PreferenceRow) : bool :=
  preferences_category_check r
  && preferences_scope_check r
  && preferences_section_type_check r.

(** The pairing of scope and qualifier that the specification asks of a
    preference: scope [section_type] carries a section type, scope [specific]
    carries a project id, scope [global] carries neither. *)
Definition scope_qualifier_paired (scope : string)
    (section_type project_id : option string) : Prop :=
  (scope = "section_type" -> is_Some section_type)
  /\ (scope = "specific" -> is_Some project_id)
  /\ (scope = "global" -> section_type = None /\ project_id = None).

(** *** The API client ([hooks/usePreferences.ts]) *)

(** The body of [POST /api/feedback/preferences]. *)
Record CreatePreferenceData : Type := {
  data_description : string;
  data_category : string;
  data_scope : option string;
  data_section_type : option string;
  data_confidence : option float
}.

(** The body of [PUT /api/feedback/preferences/:id]. *)
Record UpdatePreferenceData : Type := {
  new_description : option string;
  new_confidence : option float;
  new_is_active : option bool
}.

(** The body of [POST /api/feedback/corrections]. *)
Record RecordCorrectionData : Type := {
  correction_project_id : string;
  correction_section_id : option string;
  correction_stage : string;
  correction_category : string;
  correction_field_path : string;
  correction_prior_value : option string;
  correction_new_value : option string;
  correction_user_feedback : option string
}.

(** The requests the client has a function for; there is no other way from
    the front end to the preference and correction records. *)
Inductive ApiCall : Type :=
| getPreferences (scope category : option string) (min_confidence : option float)
    (* GET /api/feedback/preferences *)
| getPreferenceProfile
    (* GET /api/feedback/preferences/profile *)
| createPreference (data : CreatePreferenceData)
    (* POST /api/feedback/preferences *)
| updatePreference (id : string) (data : UpdatePreferenceData)
    (* PUT /api/feedback/preferences/:id *)
| deletePreference (id : string)
    (* DELETE /api/feedback/preferences/:id *)
| evolvePreferences (limit : option Z)
    (* POST /api/feedback/preferences/evolve *)
| getCorrections (project_id stage category : option string) (limit : option Z)
    (* GET /api/feedback/corrections *)
| getCorrectionStats
    (* GET /api/feedback/corrections/stats *)
| recordCorrection (data : RecordCorrectionData).
    (* POST /api/feedback/corrections *)

(** *** The management page ([PreferencesPage]) *)

(** The [newPref] state behind the manual creation form. *)
Record NewPref : Type := {
  form_description : string;
  form_category : string;
  form_scope : string;
  form_section_type : string;
  form_confidence : float
}.

Definition initialNewPref : NewPref :=
  {| form_description := ""; form_category := "style"; form_scope := "global";
     form_section_type := ""; form_confidence := 0.7 |}.

(** The values the three [<select>] elements offer. *)
Definition category_options : list string :=
  ["style"; "structural"; "content"; "technical"].
Definition scope_options : list string :=
  ["global"; "section_type"; "project"].
Definition section_type_options : list string :=
  [""; "title"; "slide"; "code"; "summary"].

(** What the user can do in the form: each input's [onChange] replaces one
    field and keeps the others. *)
Inductive FormEvent : Type :=
| ChangeDescription (value : string)
| ChangeCategory (value : string)
| ChangeScope (value : string)
| ChangeSectionType (value : string)
| ChangeConfidence (value : float).

(** An event the rendered form can raise in state [f]: a [<select>] yields one
    of its options, and the section type [<select>] is only rendered while the
    scope is [section_type]. *)
Definition offered (f : NewPref) (e : FormEvent) : bool :=
  match e with
  | ChangeDescription _ => true
  | ChangeCategory v => bool_decide (v ∈ category_options)
  | ChangeScope v => bool_decide (v ∈ scope_options)
  | ChangeSectionType v =>
      String.eqb (form_scope f) "section_type"
      && bool_decide (v ∈ section_type_options)
  | ChangeConfidence _ => true
  end.

Definition onChange (f : NewPref) (e : FormEvent) : NewPref :=
  match e with
  | ChangeDescription v =>
      {| form_description := v; form_category := form_category f;
         form_scope := form_scope f; form_section_type := form_section_type f;
         form_confidence := form_confidence f |}
  | ChangeCategory v =>
      {| form_description := form_description f; form_category := v;
         form_scope := form_scope f; form_section_type := form_section_type f;
         form_confidence := form_confidence f |}
  | ChangeScope v =>
      {| form_description := form_description f; form_category := form_category f;
         form_scope := v; form_section_type := form_section_type f;
         form_confidence := form_confidence f |}
  | ChangeSectionType v =>
      {| form_description := form_description f; form_category := form_category f;
         form_scope := form_scope f; form_section_type := v;
         form_confidence := form_confidence f |}
  | ChangeConfidence v =>
      {| form_description := form_description f; form_category := form_category f;
         form_scope := form_scope f; form_section_type := form_section_type f;
         form_confidence := v |}
  end.

(** The form after a sequence of events, or [None] when one of them is not
    offered by the form at that point. *)
Fixpoint fill (f : NewPref) (events : list FormEvent) : option NewPref :=
  match events with
  | [] => Some f
  | e :: events' => if offered f e then fill (onChange f e) events' else None
  end.

(** [handleCreate]: the request the form submits.
    [newPref.section_type || undefined] drops the empty string. *)
Definition handleCreate (newPref : NewPref) : ApiCall :=
  createPreference
    {| data_description := form_description newPref;
       data_category := form_category newPref;
       data_scope := Some (form_scope newPref);
       data_section_type :=
         if String.eqb (form_section_type newPref) "" then None
         else Some (form_section_type newPref);
       data_confidence := Some (form_confidence newPref) |}.

(** [handleDelete]: the request behind the delete button of a preference. *)
Definition handleDelete (id : string) : ApiCall := deletePreference id.

(** [handleEvolve] *)
Definition handleEvolve : ApiCall := evolvePreferences (Some 50).

(** The form's section type field agrees with its scope: filled in exactly
    when the scope is [section_type]. *)
Definition qualifier_matches_scope (f : NewPref) : Prop :=
  form_section_type f <> "" <-> form_scope f = "section_type".

(** What every state of the form reached through its own inputs satisfies. *)
Definition form_within_options (f : NewPref) : Prop :=
  form_scope f ∈ scope_options /\ form_section_type f ∈ section_type_options.

End Preferences.

(** ** The preference store behind the API *)

Module Backend.
Import Preferences.

(** Modelled from the spec: the handlers of the feedback endpoints are
    back-end code, which the front-end sources do not include. The Entity Store
    holds the Preference records by id and the Correction Log as an
    append-only sequence (section 2, section 4.2). *)
Record Store : Type := {
  preferences : gmap string PreferenceRow;
  corrections : list RecordCorrectionData
}.

(** A row with one column replaced. *)
Definition with_active (active : bool) (r : PreferenceRow) : PreferenceRow :=
  {| preference_id := preference_id r; description := description r;
     category := category r; scope := scope r; section_type := section_type r;
     project_id := project_id r; confidence := confidence r;
     source_corrections := source_corrections r; is_active := Some active;
     prompt_version := prompt_version r; created_at := created_at r;
     updated_at := updated_at r |}.

Definition with_description (d : string) (r : PreferenceRow) : PreferenceRow :=
  {| preference_id := preference_id r; description := d;
     category := category r; scope := scope r; section_type := section_type r;
     project_id := project_id r; confidence := confidence r;
     source_corrections := source_corrections r; is_active := is_active r;
     prompt_version := prompt_version r; created_at := created_at r;
     updated_at := updated_at r |}.

Definition with_confidence (c : float) (r : PreferenceRow) : PreferenceRow :=
  {| preference_id := preference_id r; description := description r;
     category := category r; scope := scope r; section_type := section_type r;
     project_id := project_id r; confidence := Some c;
     source_corrections := source_corrections r; is_active := is_active r;
     prompt_version := prompt_version r; created_at := created_at r;
     updated_at := updated_at r |}.

Definition with_sources (more : list string) (r : PreferenceRow) : PreferenceRow :=
  {| preference_id := preference_id r; description := description r;
     category := category r; scope := scope r; section_type := section_type r;
     project_id := project_id r; confidence := confidence r;
     source_corrections := Some (default [] (source_corrections r) ++ more);
     is_active := is_active r;
     prompt_version := prompt_version r; created_at := created_at r;
     updated_at := updated_at r |}.

(** Modelled from the spec: a row for a new preference, with the column
    defaults of the table ([scope] 'global', [confidence] 0.5, [is_active]
    TRUE, [prompt_version] 1) and the id the database draws for it. *)
Definition new_row (uuid now : string) (data : CreatePreferenceData) : PreferenceRow :=
  {| preference_id := uuid;
     description := data_description data;
     category := data_category data;
     scope := default "global" (data_scope data);
     section_type := data_section_type data;
     project_id := None;
     confidence := Some (default 0.5%float (data_confidence data));
     source_corrections := None;
     is_active := Some true;
     prompt_version := Some 1;
     created_at := now;
     updated_at := now |}.

(** Modelled from the spec: an insert takes effect when the table's
    constraints hold and the primary key is free. *)
Definition insert_row (r : PreferenceRow) (prefs : gmap string PreferenceRow)
    : gmap string PreferenceRow :=
  if table_accepts r then
    match prefs !! preference_id r with
    | None => <[preference_id r := r]> prefs
    | Some _ => prefs
    end
  else prefs.

(** Modelled from the spec: "an explicit user edit" of a preference. *)
Definition edit_row (data : UpdatePreferenceData) (r : PreferenceRow) : PreferenceRow :=
  let r1 := from_option (fun d => with_description d r) r (new_description data) in
  let r2 := from_option (fun c => with_confidence c r1) r1 (new_confidence data) in
  from_option (fun a => with_active a r2) r2 (new_is_active data).

(** Modelled from the spec: what a run of the Evolution Engine writes back,
    "creates a new Preference" or "reinforces an existing matching Preference"
    (section 4.4); contradicting evidence changes the confidence of an
    existing preference the same way. *)
Inductive PreferenceWrite : Type :=
| NewPreference (row : PreferenceRow)
| Revise (id : string) (confidence : float) (sources : list string).

Definition apply_write (prefs : gmap string PreferenceRow) (w : PreferenceWrite)
    : gmap string PreferenceRow :=
  match w with
  | NewPreference row => insert_row row prefs
  | Revise id c sources =>
      alter (fun r => with_sources sources (with_confidence c r)) id prefs
  end.

Section Handlers.
(** Modelled from the spec: the inference of the Evolution Engine, whose
    rule the specification leaves open; it sees the log, the limit of the
    request and the current preferences, and answers with the writes. *)
Variable infer :
  list RecordCorrectionData -> option Z -> gmap string PreferenceRow
  -> list PreferenceWrite.

(** Modelled from the spec: the effect of each request on the store.
    "never hard-deleted - deactivation sets [is_active = false] to preserve
    audit history" (section 3); reads leave the store as it is; a correction
    is appended to the log. [uuid] and [now] are the id and the time the
    database draws for a new record. *)
Definition handle (uuid now : string) (call : ApiCall) (s : Store) : Store :=
  match call with
  | createPreference data =>
      {| preferences := insert_row (new_row uuid now data) (preferences s);
         corrections := corrections s |}
  | updatePreference id data =>
      {| preferences := alter (edit_row data) id (preferences s);
         corrections := corrections s |}
  | deletePreference id =>
      {| preferences := alter (with_active false) id (preferences s);
         corrections := corrections s |}
  | evolvePreferences limit =>
      {| preferences :=
           foldl apply_write (preferences s)
                 (infer (corrections s) limit (preferences s));
         corrections := corrections s |}
  | recordCorrection data =>
      {| preferences := preferences s;
         corrections := corrections s ++ [data] |}
  | getPreferences _ _ _ | getPreferenceProfile
  | getCorrections _ _ _ _ | getCorrectionStats => s
  end.
End Handlers.

End Backend.

(** ** JavaScript strings as UTF-16 code units *)

Module Utf16.

(** A JavaScript string is a sequence of 16-bit code units, each a number
    below [2^16]; no function below depends on that bound. *)
Definition t : Type := list N.

(** [s.length] *)
Definition length (s : t) : nat := List.length s.

(** [s.slice(start, end)] and [s.slice(start)]: the index arithmetic is that
    of the array methods. *)
Definition slice (s : t) (start end_ : Z) : t := Js.slice s start end_.

Definition slice_from (s : t) (start : Z) : t := Js.slice_from s start.

(** The code units that [trim] strips: the white space of ECMAScript (tab,
    vertical tab, form feed, U+FEFF and the space separators of Unicode:
    U+0020, U+00A0, U+1680, U+2000 to U+200A, U+202F, U+205F, U+3000) and its
    line terminators (line feed, carriage return, U+2028, U+2029). *)
Definition isWhiteSpace (c : N) : bool :=
  bool_decide (c ∈ [0x0009; 0x000A; 0x000B; 0x000C; 0x000D; 0x0020; 0x00A0; 0x1680;
                    0x2028; 0x2029; 0x202F; 0x205F; 0x3000; 0xFEFF]%N)
  || ((0x2000 <=? c)%N && (c <=? 0x200A)%N).

Fixpoint trimStart (s : t) : t :=
  match s with
  | c :: s' => if isWhiteSpace c then trimStart s' else s
  | [] => []
  end.

(** [s.trim()] *)
Definition trim (s : t) : t := rev (trimStart (rev (trimStart s))).

(** The line feed of ["\n"]. *)
Definition newline : t := [0x000A%N].

(** [strings.join(sep)] *)
Fixpoint join (sep : t) (strings : list t) : t :=
  match strings with
  | [] => []
  | s :: rest =>
      match rest with
      | [] => s
      | _ :: _ => s ++ sep ++ join sep rest
      end
  end.

(** The string that a literal of the source denotes: the code units of its
    text, which the literal here holds in UTF-8 (one, two, three or four
    bytes per character; a character beyond U+FFFF is a surrogate pair). *)
Fixpoint lit (s : string) : t :=
  match s with
  | EmptyString => []
  | String a rest =>
      let b := Ascii.N_of_ascii a in
      let low x := N.land (Ascii.N_of_ascii x) 0x3F in
      if (b <? 0x80)%N then b :: lit rest
      else if (b <? 0xE0)%N then
        match rest with
        | String a1 rest1 =>
            N.lor (N.shiftl (N.land b 0x1F) 6) (low a1) :: lit rest1
        | _ => [0xFFFD%N]
        end
      else if (b <? 0xF0)%N then
        match rest with
        | String a1 (String a2 rest2) =>
            N.lor (N.shiftl (N.land b 0x0F) 12) (N.lor (N.shiftl (low a1) 6) (low a2))
            :: lit rest2
        | _ => [0xFFFD%N]
        end
      else
        match rest with
        | String a1 (String a2 (String a3 rest3)) =>
            let point :=
              N.lor (N.shiftl (N.land b 0x07) 18)
                (N.lor (N.shiftl (low a1) 12) (N.lor (N.shiftl (low a2) 6) (low a3))) in
            let offset := (point - 0x10000)%N in
            (0xD800 + N.shiftr offset 10)%N :: (0xDC00 + N.land offset 0x3FF)%N
            :: lit rest3
        | _ => [0xFFFD%N]
        end
  end.

End Utf16.

(** ** JavaScript string primitives on text *)

Module JsString.

(** The line feed of ["\n"]. *)
Definition newline : string := String (Ascii.ascii_of_nat 10) EmptyString.

(** [strings.join(sep)] *)
Definition join (sep : string) (strings : list string) : string :=
  String.concat sep strings.

(** [s.includes(c)] for a single character. *)
Fixpoint includes (c : Ascii.ascii) (s : string) : bool :=
  match s with
  | EmptyString => false
  | String a s' => Ascii.eqb a c || includes c s'
  end.

(** [s.split(sep)] for a separator of one character: the pieces between the
    separators, empty pieces included; the empty string gives one empty
    piece. *)
Fixpoint split (sep : Ascii.ascii) (s : string) : list string :=
  match s with
  | EmptyString => [EmptyString]
  | String a s' =>
      if Ascii.eqb a sep then EmptyString :: split sep s'
      else
        match split sep s' with
        | piece :: pieces => String a piece :: pieces
        | [] => [String a EmptyString]
        end
  end.

(** The character of [newline]. *)
Definition newline_char : Ascii.ascii := Ascii.ascii_of_nat 10.

End JsString.

(** ** The structured script editor ([StructuredScriptEditor]) *)

Module ScriptEditor.
Import Types.

Record ScriptSectionData : Type := {
  type : string;
  duration : option float;   (* absent in scripts that carry no duration *)
  narration : Utf16.t;       (* split at a position and measured by [.length] *)
  visual_spec : option (gmap string json)
}.

Record ScriptEditorState : Type := {
  title : string;
  description : string;
  sections : list ScriptSectionData
}.

(** The editor keeps its state in the undo/redo hook, with [maxHistory: 10],
    and the selection for merging beside it. *)
Record Editor : Type := {
  history : UndoRedo.History ScriptEditorState;
  selectedIndices : gset nat
}.

Definition state (ed : Editor) : ScriptEditorState := UndoRedo.present (history ed).

Inductive AlertMessage : Type :=
| AtLeastOneSection      (* 最低1つのセクションが必要です *)
| InvalidSplitPosition   (* 分割位置が無効です *)
| SelectTwoOrMore        (* 2つ以上のセクションを選択してください *)
| OnlyAdjacentSections.  (* 隣接するセクションのみ結合できます *)

(** How a handler of the editor ends: it alerts and returns, it calls
    [setSections] with an array of sections, it returns without doing
    anything, it throws a [TypeError] on reading a property of [undefined],
    or it calls [setSections] with an array that holds [undefined]. *)
Inductive Outcome : Type :=
| Alert (message : AlertMessage)
| SetSections (newSections : list ScriptSectionData)
| Nothing
| Throws
| SetSectionsWithUndefined.

(** [setSections]: a new editor state through the hook, and the selection
    cleared. *)
Definition setSections (newSections : list ScriptSectionData) (ed : Editor) : Editor :=
  {| history :=
       UndoRedo.setState 10
         {| title := title (state ed); description := description (state ed);
            sections := newSections |}
         (history ed);
     selectedIndices := ∅ |}.

(** The editor after a handler ended with [o]; there is none when the
    handler stored an array that is not a list of sections. *)
Definition perform (o : Outcome) (ed : Editor) : option Editor :=
  match o with
  | SetSections newSections => Some (setSections newSections ed)
  | Alert _ | Nothing | Throws => Some ed
  | SetSectionsWithUndefined => None
  end.

(** [sectionIds]: the drag-and-drop id of the section at each position. *)
Definition sectionIds (sections : list ScriptSectionData) : list string :=
  Js.mapi (fun _ i => "section-" +:+ pretty i) sections.

(** The [index] each rendered section card is given. *)
Definition cardIndices (sections : list ScriptSectionData) : list nat :=
  Js.mapi (fun _ i => i) sections.

Definition deleteSection (sections : list ScriptSectionData) (index : nat) : Outcome :=
  if Z.of_nat (length sections) <=? 1 then Alert AtLeastOneSection
  else SetSections (Js.filteri (fun _ i => negb (bool_decide (i = index))) sections).

Definition splitSectionAtPosition (sections : list ScriptSectionData)
    (index : nat) (position : Z) : Outcome :=
  match sections !! index with
  | None => Throws
  | Some section =>
      let narration := narration section in
      if (position <=? 0) || (Z.of_nat (Utf16.length narration) <=? position)
      then Alert InvalidSplitPosition
      else
        let firstHalf :=
          {| type := type section;
             duration := duration section;
             narration := Utf16.trim (Utf16.slice narration 0 position);
             visual_spec := visual_spec section |} in
        let secondHalf :=
          {| type := type section;
             narration := Utf16.trim (Utf16.slice_from narration position);
             duration := Some 0%float;
             visual_spec := Some (default ∅ (visual_spec section)) |} in
        SetSections
          (fst (Js.splice sections (Z.of_nat index) 1 [firstHalf; secondHalf]))
  end.

(** The loop that checks that each sorted index is its predecessor plus 1. *)
Fixpoint consecutive (sortedIndices : list nat) : bool :=
  match sortedIndices with
  | a :: ((b :: _) as rest) =>
      if Z.of_nat b - Z.of_nat a =? 1 then consecutive rest else false
  | _ => true
  end.

(** [s.duration || 0]: an absent duration, a NaN and a zero count as 0. *)
Definition duration_or_zero (s : ScriptSectionData) : float :=
  match duration s with
  | Some d => if is_nan d || is_zero d then 0%float else d
  | None => 0%float
  end.

(** The section that replaces the sections to merge. *)
Definition mergedSection (first : ScriptSectionData)
    (sectionsToMerge : list ScriptSectionData) : ScriptSectionData :=
  {| type := type first;
     duration :=
       Some (foldl (fun sum s => (sum + duration_or_zero s)%float) 0%float
                   sectionsToMerge);
     narration :=
       Utf16.join Utf16.newline (List.map narration sectionsToMerge);
     visual_spec := visual_spec first |}.

(** [handleMergeSelected]. [sections[i]] is [undefined] for an index beyond
    the array (a selection kept across an undo can hold one); reading
    [.type] or [.duration] of it throws. *)
Definition handleMergeSelected (sections : list ScriptSectionData)
    (selectedIndices : gset nat) : Outcome :=
  if Z.of_nat (size selectedIndices) <? 2 then Alert SelectTwoOrMore
  else
    let sortedIndices := merge_sort le (elements selectedIndices) in
    if negb (consecutive sortedIndices) then Alert OnlyAdjacentSections
    else
      match mapM (fun i => sections !! i) sortedIndices with
      | Some ((first :: _) as sectionsToMerge) =>
          let newSections :=
            Js.filteri (fun _ i => negb (bool_decide (i ∈ selectedIndices))) sections in
          SetSections
            (fst (Js.splice newSections
                    (Z.of_nat (default 0%nat (head sortedIndices))) 0
                    [mergedSection first sectionsToMerge]))
      | _ => Throws
      end.

(** [arrayMove] of the drag-and-drop library: the element at [from] is taken
    out of a copy of the array and put in at [to], where a negative [to]
    counts from the end of the array as it was. When there is no element at
    [from], the library puts [undefined] in: that result is [None] here. *)
Definition arrayMove {T : Type} (array : list T) (from to : Z) : option (list T) :=
  let target := if to <? 0 then Z.of_nat (length array) + to else to in
  let '(rest, removed) := Js.splice array from 1 [] in
  match removed with
  | item :: _ => Some (fst (Js.splice rest target 0 [item]))
  | [] => None
  end.

(** The part of a [DragEndEvent] the handler reads. *)
Record DragEndEvent : Type := {
  active : string;          (* [active.id] *)
  over : option string      (* [over?.id] *)
}.

Definition handleDragEnd (sections : list ScriptSectionData) (event : DragEndEvent)
    : Outcome :=
  match over event with
  | Some over_id =>
      if negb (String.eqb (active event) over_id) then
        let oldIndex := Js.indexOf (sectionIds sections) (active event) in
        let newIndex := Js.indexOf (sectionIds sections) over_id in
        match arrayMove sections oldIndex newIndex with
        | Some moved => SetSections moved
        | None => SetSectionsWithUndefined
        end
      else Nothing
  | None => Nothing
  end.

(** *** The other handlers of the editor *)

(** [updateVisualSpec]: the section with one field of its visual settings
    set; [section.visual_spec || {}] starts from the empty record when the
    section has none. *)
Definition updateVisualSpec (section : ScriptSectionData) (field : string)
    (value : json) : ScriptSectionData :=
  {| type := type section;
     duration := duration section;
     narration := narration section;
     visual_spec := Some (<[field := value]> (default ∅ (visual_spec section))) |}.

(** [updateSection]: [newSections[index] = updated] on a copy. Assigning at
    the length appends; assigning beyond it leaves holes in the array. *)
Definition updateSection (sections : list ScriptSectionData) (index : nat)
    (updated : ScriptSectionData) : Outcome :=
  if decide (index < length sections)%nat then SetSections (<[index := updated]> sections)
  else if decide (index = length sections) then SetSections (sections ++ [updated])
  else SetSectionsWithUndefined.

(** The section [addSection] inserts. *)
Definition newSection : ScriptSectionData :=
  {| type := "slide";
     duration := Some 0%float;
     narration := Utf16.lit "新しいセクションのナレーションを入力してください。";
     visual_spec :=
       Some (<["heading" := JStr "見出し"]>
               (<["bullets" := JArr [JStr "ポイント1"]]> ∅)) |}.

(** [addSection(afterIndex)]; the button below the list passes
    [sections.length - 1]. *)
Definition addSection (sections : list ScriptSectionData) (afterIndex : Z) : Outcome :=
  SetSections (fst (Js.splice sections (afterIndex + 1) 0 [newSection])).

(** [toggleSelection]: the check box of a card adds its index to the
    selection or takes it out. *)
Definition toggleSelection (selectedIndices : gset nat) (index : nat)
    (selected : bool) : gset nat :=
  if selected then {[ index ]} ∪ selectedIndices else selectedIndices ∖ {[ index ]}.

(** [setTitle] and [setDescription] go through the hook as well, and keep the
    selection. *)
Definition setTitle (newTitle : string) (ed : Editor) : Editor :=
  {| history :=
       UndoRedo.setState 10
         {| title := newTitle; description := description (state ed);
            sections := sections (state ed) |}
         (history ed);
     selectedIndices := selectedIndices ed |}.

Definition setDescription (newDescription : string) (ed : Editor) : Editor :=
  {| history :=
       UndoRedo.setState 10
         {| title := title (state ed); description := newDescription;
            sections := sections (state ed) |}
         (history ed);
     selectedIndices := selectedIndices ed |}.

(** The undo and redo buttons (and shortcuts) act on the hook alone: the
    selection stays as it is. *)
Definition undo (ed : Editor) : Editor :=
  {| history := UndoRedo.undo (history ed); selectedIndices := selectedIndices ed |}.

Definition redo (ed : Editor) : Editor :=
  {| history := UndoRedo.redo (history ed); selectedIndices := selectedIndices ed |}.

(** *** The section card ([SortableSectionCard]) *)

(** [handleSplit(position)]: the position it hands to [onSplitAtPosition],
    if any. [position ?? cursorPosition] falls back on the cursor position
    recorded in split mode. *)
Definition handleSplit (section : ScriptSectionData) (position : option Z)
    (cursorPosition : option Z) : option Z :=
  match from_option Some cursorPosition position with
  | Some pos =>
      if (0 <? pos) && (pos <? Z.of_nat (Utf16.length (narration section)))
      then Some pos else None
  | None => None
  end.

(** [handleTextareaKeyDown]: Ctrl/Meta+e splits at the caret
    ([selectionStart]). *)
Definition handleTextareaKeyDown (section : ScriptSectionData)
    (e : UndoRedo.KeyboardEvent) (selectionStart : Z) (cursorPosition : option Z)
    : option Z :=
  if (UndoRedo.metaKey e || UndoRedo.ctrlKey e) && String.eqb (UndoRedo.key e) "e" then
    if (0 <? selectionStart)
       && (selectionStart <? Z.of_nat (Utf16.length (narration section)))
    then handleSplit section (Some selectionStart) cursorPosition
    else None
  else None.

(** The card at [index] wired to the editor:
    [onSplitAtPosition = position => splitSectionAtPosition(index, position)].
    A card exists for the positions of the list only. *)
Definition cardKeyDown (sections : list ScriptSectionData) (index : nat)
    (e : UndoRedo.KeyboardEvent) (selectionStart : Z) (cursorPosition : option Z)
    : Outcome :=
  match sections !! index with
  | Some section =>
      match handleTextareaKeyDown section e selectionStart cursorPosition with
      | Some pos => splitSectionAtPosition sections index pos
      | None => Nothing
      end
  | None => Nothing
  end.

(** The text area of the bullet points of a slide (and of the points of a
    summary) shows [bullets.join("\n")] and stores
    [text.split("\n").filter(Boolean)]. *)
Definition bulletsText (bullets : list string) : string :=
  JsString.join JsString.newline bullets.

Definition bulletsOfText (text : string) : list string :=
  List.filter (fun piece => negb (String.eqb piece ""))
              (JsString.split JsString.newline_char text).

(** A bullet the text area can hold on one line: not empty, no line feed. *)
Definition one_line (bullet : string) : Prop :=
  bullet <> "" /\ JsString.includes JsString.newline_char bullet = false.

(** The list after a merge of the run [from .. from + count - 1]. *)
Definition merged_list (sections : list ScriptSectionData) (from count : nat)
    (first : ScriptSectionData) : list ScriptSectionData :=
  take from sections
  ++ [mergedSection first (take count (drop from sections))]
  ++ drop (from + count) sections.

End ScriptEditor.

(** ** The editor with move buttons *)

(** A variant of the structured editor moves a section with an up and a down
    button on its card instead of drag and drop. *)
Module ButtonEditor.
Import ScriptEditor.

Inductive Direction : Type :=
| up
| down.

(** [moveSection(index, direction)]: the section changes places with its
    neighbour; nothing happens at the ends of the list. The destructuring
    assignment reads both places before it writes them. *)
Definition moveSection (sections : list ScriptSectionData) (index : nat)
    (direction : Direction) : Outcome :=
  let newIndex :=
    match direction with
    | up => Z.of_nat index - 1
    | down => Z.of_nat index + 1
    end in
  if (newIndex <? 0) || (Z.of_nat (length sections) <=? newIndex) then Nothing
  else
    match sections !! index, sections !! Z.to_nat newIndex with
    | Some here, Some there =>
        SetSections (<[Z.to_nat newIndex := here]> (<[index := there]> sections))
    | _, _ => SetSectionsWithUndefined
    end.

(** The card disables the up button of the first section and the down button
    of the last one. *)
Definition moveDisabled (totalSections : Z) (index : nat) (direction : Direction) : bool :=
  match direction with
  | up => Z.of_nat index =? 0
  | down => Z.of_nat index =? totalSections - 1
  end.

End ButtonEditor.

(** ** The page that creates a project ([NewProjectPage]) *)

Module NewProject.




End NewProject.

(** ** The workflow navigation ([WorkflowNav]) *)

Module Workflow.
Import Types.

(** The string a [ProjectState] is. *)
Definition state_name (s : ProjectState) : string :=
  match s with
  | init => "init"
  | script_done => "script_done"
  | visuals_done => "visuals_done"
  | narration_done => "narration_done"
  | composed => "composed"
  end.

(** How far a project has come: the position of its state in the pipeline
    [init -> script_done -> visuals_done -> narration_done -> composed]. *)
Definition progress (s : ProjectState) : nat :=
  match s with
  | init => 0
  | script_done => 1
  | visuals_done => 2
  | narration_done => 3
  | composed => 4
  end.

Record Step : Type := {
  step_id : string;
  href : string;
  available : bool   (* an available step is a link, another one plain text *)
}.

Definition WorkflowNav (projectId : string) (state : string) : list Step :=
  [ {| step_id := "script";
       href := "/projects/" +:+ projectId;
       available := true |};
    {| step_id := "visuals";
       href := "/projects/" +:+ projectId +:+ "/visuals";
       available := negb (String.eqb state "init") |};
    {| step_id := "narration";
       href := "/projects/" +:+ projectId +:+ "/narration";
       available :=
         bool_decide (state ∈ ["visuals_done"; "narration_done"; "composed"]) |};
    {| step_id := "compose";
       href := "/projects/" +:+ projectId +:+ "/compose";
       available := bool_decide (state ∈ ["narration_done"; "composed"]) |} ].

(** Whether the navigation links to the step [id]. *)
Definition links_to (id : string) (steps : list Step) : bool :=
  existsb (fun step => String.eqb (step_id step) id && available step) steps.

End Workflow.

(** ** The delete button with confirmation ([DeleteConfirmButton]) *)

Module DeleteConfirm.

(** The three buttons of the component. *)
Inductive Button : Type :=
| OpenButton      (* 削除, shown while [showConfirm] is false *)
| ConfirmButton   (* 削除, shown beside the question *)
| CancelButton.   (* キャンセル *)

Definition rendered (showConfirm : bool) (b : Button) : bool :=
  match b with
  | OpenButton => negb showConfirm
  | ConfirmButton | CancelButton => showConfirm
  end.

(** A click on [b] while [showConfirm] holds: the new [showConfirm] and the
    number of calls of [onConfirm]. A button that is not rendered cannot be
    clicked; on the preference page the confirm button is disabled while the
    delete request is pending, in the script editor [isPending] is always
    false. *)
Definition click (showConfirm : bool) (event : bool * Button) : bool * nat :=
  let '(isPending, b) := event in
  if rendered showConfirm b then
    match b with
    | OpenButton => (true, 0%nat)
    | ConfirmButton => if isPending then (showConfirm, 0%nat) else (false, 1%nat)
    | CancelButton => (false, 0%nat)
    end
  else (showConfirm, 0%nat).

(** The component after a sequence of clicks, with the calls of [onConfirm]
    counted. *)
Fixpoint clicks (showConfirm : bool) (events : list (bool * Button)) : bool * nat :=
  match events with
  | [] => (showConfirm, 0%nat)
  | event :: events' =>
      let '(next, calls) := click showConfirm event in
      let '(final, more) := clicks next events' in
      (final, (calls + more)%nat)
  end.

End DeleteConfirm.

(** ** The constraints of the tables and the constants of the pages *)

Module Schema.
Import Types.

(** [projects_state_check] *)
Definition projects_state_check (state : string) : bool :=
  bool_decide (state ∈ ["init"; "script_done"; "visuals_done"; "narration_done"; "composed"]).

(** [sections_type_check] *)
Definition sections_type_check (type : string) : bool :=
  bool_decide (type ∈ ["title"; "slide"; "code"; "code_typing"; "diagram"; "summary"]).

(** [corrections_stage_check] *)
Definition corrections_stage_check (stage : string) : bool :=
  bool_decide (stage ∈ ["script"; "narration"; "image"; "animation"; "composition"]).

(** [corrections_category_check] *)
Definition corrections_category_check (category : string) : bool :=
  bool_decide (category ∈ ["style"; "structural"; "content"; "technical"]).

(** The string a [SectionType] is. *)
Definition type_name (t : SectionType) : string :=
  match t with
  | title => "title"
  | slide => "slide"
  | code => "code"
  | code_typing => "code_typing"
  | diagram => "diagram"
  | summary => "summary"
  end.

(** [SECTION_TYPES], the options of the type [<select>] of a section card. *)
Definition SECTION_TYPES : list string :=
  ["title"; "slide"; "code"; "code_typing"; "diagram"; "summary"].

End Schema.

(** * Properties *)

(** ** The undo/redo hook *)

Section UndoRedoFacts.
Import UndoRedo.
Context {T : Type}.
Implicit Types (h : History T) (s : T).

Lemma rel_index_in_range (len : nat) (i : Z) :
  0 <= i <= Z.of_nat len -> Js.rel_index len i = Z.to_nat i.
Proof.
  intros Hi. unfold Js.rel_index.
  destruct (Z.ltb_spec i 0); [lia|]. f_equal. lia.
Qed.

Lemma undo_after_push (l : list T) (p q : T) (f : list T) :
  undo {| past := l ++ [p]; present := q; future := f |}
  = {| past := l; present := p; future := q :: f |}.
Proof.
  unfold undo. cbn [past present future]. rewrite length_app. cbn [length].
  destruct (Z.eqb_spec (Z.of_nat (length l + 1)) 0) as [E|_]; [lia|].
  replace (length l + 1 - 1)%nat with (length l) by lia.
  rewrite list_lookup_middle by done. f_equal.
  unfold Js.slice. rewrite length_app. cbn [length].
  rewrite !rel_index_in_range by lia.
  replace (Z.to_nat _ - Z.to_nat 0)%nat with (length l) by lia.
  change (Z.to_nat 0) with 0%nat. rewrite drop_0. by rewrite take_app_length.
Qed.

Lemma setState_shape (maxHistory : Z) s h :
  1 <= maxHistory ->
  exists k : nat,
    setState maxHistory s h
    = {| past := drop k (past h) ++ [present h]; present := s; future := [] |}.
Proof.
  intros Hmax. unfold setState.
  destruct (Z.ltb_spec maxHistory (Z.of_nat (length (past h ++ [present h])))) as [Hlt|Hge].
  - rewrite length_app in *. cbn [length] in *.
    exists (length (past h) + 1 - Z.to_nat maxHistory)%nat. f_equal.
    unfold Js.slice_from. rewrite length_app. cbn [length].
    rewrite rel_index_in_range by lia.
    replace (Z.to_nat _) with (length (past h) + 1 - Z.to_nat maxHistory)%nat by lia.
    apply drop_app_le. lia.
  - exists 0%nat. by rewrite drop_0.
Qed.

Lemma redo_after_pop (l : list T) (p q : T) (f : list T) :
  redo {| past := l; present := p; future := q :: f |}
  = {| past := l ++ [p]; present := q; future := f |}.
Proof.
  unfold redo. cbn [past present future length].
  destruct (Z.eqb_spec (Z.of_nat (S (length f))) 0) as [E|_]; [lia|].
  cbn [lookup list_lookup]. f_equal.
  unfold Js.slice_from. cbn [length]. by rewrite rel_index_in_range by lia.
Qed.

Lemma undo_empty_past h : past h = [] -> undo h = h.
Proof. intros E. unfold undo. by rewrite E. Qed.

Lemma redo_empty_future h : future h = [] -> redo h = h.
Proof. intros E. unfold redo. by rewrite E. Qed.

Lemma setState_within (maxHistory : Z) s h :
  0 <= maxHistory -> within maxHistory (setState maxHistory s h).
Proof.
  intros Hmax. unfold within, setState. cbn [past future length].
  destruct (Z.ltb_spec maxHistory (Z.of_nat (length (past h ++ [present h])))) as [Hlt|Hge].
  - unfold Js.slice_from. rewrite rel_index_in_range by lia.
    rewrite length_drop. lia.
  - lia.
Qed.

Lemma undo_within (maxHistory : Z) h :
  within maxHistory h -> within maxHistory (undo h).
Proof.
  destruct h as [l p f]. destruct l as [|x l _] using rev_ind; [done|].
  rewrite undo_after_push. unfold within. cbn [past future length].
  rewrite length_app. cbn [length]. lia.
Qed.

Lemma redo_within (maxHistory : Z) h :
  within maxHistory h -> within maxHistory (redo h).
Proof.
  destruct h as [l p [|q f]]; [done|].
  rewrite redo_after_pop. unfold within. cbn [past future length].
  rewrite length_app. cbn [length]. lia.
Qed.

Lemma run_within (maxHistory : Z) (init : T) (acts : list (action T)) :
  0 <= maxHistory -> within maxHistory (run maxHistory init acts).
Proof.
  intros Hmax. unfold run.
  induction acts as [|a acts IH] using rev_ind.
  - unfold within. cbn. lia.
  - rewrite foldl_snoc. destruct a; cbn [step].
    + by apply setState_within.
    + by apply undo_within.
    + by apply redo_within.
    + unfold within. cbn. lia.
Qed.
End UndoRedoFacts.

(** C10 (as amended). With a history of at least one entry, [setState s]
    followed by [undo] gives back the state that was present, and a [redo]
    after it gives [s] again; [undo] on an empty past and [redo] on an empty
    future change nothing; every [setState] empties the future stack; and with
    a history size that is not negative, the past stack of every state the
    hook reaches from its initial state holds at most [maxHistory] entries. *)
Theorem undo_redo_laws :
  forall (T : Type) (maxHistory : Z) (h : UndoRedo.History T) (s : T),
    (1 <= maxHistory ->
       UndoRedo.present (UndoRedo.undo (UndoRedo.setState maxHistory s h))
         = UndoRedo.present h
       /\ UndoRedo.present
            (UndoRedo.redo (UndoRedo.undo (UndoRedo.setState maxHistory s h))) = s
       /\ UndoRedo.redo (UndoRedo.undo (UndoRedo.setState maxHistory s h))
            = UndoRedo.setState maxHistory s h)
    /\ (UndoRedo.past h = [] -> UndoRedo.undo h = h)
    /\ (UndoRedo.future h = [] -> UndoRedo.redo h = h)
    /\ UndoRedo.future (UndoRedo.setState maxHistory s h) = []
    /\ (0 <= maxHistory ->
        forall (init : T) (acts : list (UndoRedo.action T)),
          Z.of_nat (length (UndoRedo.past (UndoRedo.run maxHistory init acts)))
            <= maxHistory).
Proof.
  intros T maxHistory h s.
  split; [|split; [|split; [|split]]].
  - intros Hmax. destruct (setState_shape maxHistory s h Hmax) as [k ->].
    by rewrite undo_after_push, redo_after_pop.
  - apply undo_empty_past.
  - apply redo_empty_future.
  - reflexivity.
  - intros Hmax init acts.
    pose proof (run_within maxHistory init acts Hmax) as Hw.
    unfold UndoRedo.within in Hw. lia.
Qed.

(** The laws at the editor's setting, [maxHistory = 10], after three edits. *)
Lemma undo_redo_laws_witness :
  let h := UndoRedo.run 10 0%nat [UndoRedo.SetState 1%nat; UndoRedo.SetState 2%nat] in
  1 <= 10
  /\ UndoRedo.present (UndoRedo.undo (UndoRedo.setState 10 3%nat h)) = 2%nat
  /\ UndoRedo.present
       (UndoRedo.redo (UndoRedo.undo (UndoRedo.setState 10 3%nat h))) = 3%nat.
Proof.
  intros h.
  destruct (undo_redo_laws nat 10 h 3%nat) as [Hrt _].
  split; [lia|].
  destruct (Hrt ltac:(lia)) as (Hu & Hr & _).
  split; [exact Hu | exact Hr].
Defined.

(** C10 (as stated) fails when the hook is given [maxHistory = 0]: [setState]
    then keeps no past entry, so the [undo] after it is a no-op and the
    present state stays the new one. *)
Lemma undo_redo_no_history_counterexample :
  UndoRedo.present (UndoRedo.useUndoRedo 1%nat) = 1%nat
  /\ UndoRedo.past (UndoRedo.setState 0 2%nat (UndoRedo.useUndoRedo 1%nat)) = []
  /\ UndoRedo.present
       (UndoRedo.undo (UndoRedo.setState 0 2%nat (UndoRedo.useUndoRedo 1%nat))) = 2%nat.
Proof. repeat split. Qed.

(** ** The confidence tiers *)

Section FloatOrder.
Import SpecFloat.

(** Comparing in the other direction gives the opposite answer. *)
Lemma SFcompare_swap (x y : spec_float) :
  SFcompare y x = option_map CompOpp (SFcompare x y).
Proof.
  destruct x as [s1|s1| |s1 m1 e1], y as [s2|s2| |s2 m2 e2]; cbn;
    try destruct s1; try destruct s2; try reflexivity;
    rewrite (Z.compare_antisym e2 e1);
    destruct (e2 ?= e1)%Z; cbn; try reflexivity;
    change (PosDef.Pos.compare_cont Eq m2 m1) with (Pos.compare m2 m1);
    change (PosDef.Pos.compare_cont Eq m1 m2) with (Pos.compare m1 m2);
    rewrite (Pos.compare_antisym m1 m2);
    by rewrite ?CompOpp_involutive.
Qed.

(** On numbers that can be compared at all (neither is a NaN), [<] is the
    negation of [>=]. *)
Lemma float_ltb_iff_not_leb (x y : float) :
  is_Some (SFcompare (Prim2SF y) (Prim2SF x)) ->
  (x <? y)%float = true <-> (y <=? x)%float = false.
Proof.
  rewrite ltb_spec, leb_spec. unfold SFltb, SFleb.
  rewrite (SFcompare_swap (Prim2SF y) (Prim2SF x)).
  intros [c ->]. destruct c; cbn; split; congruence.
Qed.

Lemma float_leb_comparable (x y : float) :
  (x <=? y)%float = true -> is_Some (SFcompare (Prim2SF x) (Prim2SF y)).
Proof.
  rewrite leb_spec. unfold SFleb.
  destruct (SFcompare (Prim2SF x) (Prim2SF y)); [eauto|discriminate].
Qed.

(** A number that compares with one number compares with every number
    that is not a NaN. *)
Lemma float_comparable_other (x y z : float) :
  is_Some (SFcompare (Prim2SF x) (Prim2SF y)) ->
  is_Some (SFcompare (Prim2SF z) (Prim2SF z)) ->
  is_Some (SFcompare (Prim2SF z) (Prim2SF y)).
Proof.
  destruct (Prim2SF x) as [?|?| |[] ? ?], (Prim2SF y) as [?|?| |[] ? ?],
    (Prim2SF z) as [?|?| |[] ? ?]; cbn; intros [? ?] [? ?]; eauto; discriminate.
Qed.
End FloatOrder.

Section ConfidenceFacts.
Import Confidence.
Local Open Scope float_scope.

Lemma confidence_comparable (c t : float) :
  in_unit_interval c ->
  (t =? t) = true ->
  is_Some (SpecFloat.SFcompare (Prim2SF t) (Prim2SF c)).
Proof.
  intros [H0 _] Ht. apply float_leb_comparable in H0.
  apply (float_comparable_other 0 c t H0).
  rewrite FloatAxioms.eqb_spec in Ht. unfold SpecFloat.SFeqb in Ht.
  destruct (SpecFloat.SFcompare (Prim2SF t) (Prim2SF t)); [eauto|discriminate].
Qed.

(** The two boundaries as binary64 numbers: the same exponent, the upper
    one with the larger mantissa. *)
Lemma boundaries_binary64 :
  exists (lo hi : positive) (e : Z),
    Prim2SF 0.5 = SpecFloat.S754_finite false lo e
    /\ Prim2SF 0.85 = SpecFloat.S754_finite false hi e
    /\ (lo <= hi)%positive.
Proof.
  exists 4503599627370496%positive, 7656119366529843%positive, (-53)%Z.
  split; [|split]; vm_compute; [reflexivity | reflexivity | discriminate].
Qed.

(** The upper boundary lies above the lower one. *)
Lemma above_upper_above_lower (c : float) :
  (0.85 <=? c) = true -> (0.5 <=? c) = true.
Proof.
  rewrite !leb_spec. unfold SpecFloat.SFleb.
  destruct boundaries_binary64 as (lo & hi & e0 & -> & -> & Hle).
  destruct (Prim2SF c) as [[]|[]| |[] m e]; cbn; try done.
  destruct (e0 ?= e)%Z; try done.
  change (PosDef.Pos.compare_cont Eq ?a ?b) with (Pos.compare a b).
  destruct (Pos.compare_spec hi m), (Pos.compare_spec lo m); try done; lia.
Qed.

Lemma colour_classes_distinct :
  green <> yellow /\ green <> gray /\ yellow <> gray.
Proof. repeat split; discriminate. Qed.
End ConfidenceFacts.

(** C1. A confidence of the unit interval gets exactly one of the three
    colour classes of the badge, with the boundaries at 0.85 and 0.5: the
    green (auto-applied) class exactly when it is at least 0.85, the yellow
    (suggestion) class exactly when it is at least 0.5 and below 0.85, the
    gray (audit-only) class exactly when it is below 0.5. *)
Theorem confidence_badge_tiers :
  forall c : float,
    Confidence.in_unit_interval c ->
    (Confidence.ConfidenceBadge c = Confidence.green <-> (0.85 <=? c)%float = true)
    /\ (Confidence.ConfidenceBadge c = Confidence.yellow
        <-> (0.5 <=? c)%float = true /\ (c <? 0.85)%float = true)
    /\ (Confidence.ConfidenceBadge c = Confidence.gray <-> (c <? 0.5)%float = true)
    /\ (Confidence.ConfidenceBadge c = Confidence.green
        \/ Confidence.ConfidenceBadge c = Confidence.yellow
        \/ Confidence.ConfidenceBadge c = Confidence.gray)
    /\ Confidence.green <> Confidence.yellow
    /\ Confidence.green <> Confidence.gray
    /\ Confidence.yellow <> Confidence.gray.
Proof.
  intros c Hc.
  pose proof (float_ltb_iff_not_leb c 0.85
                (confidence_comparable c 0.85 Hc eq_refl)) as Hhi.
  pose proof (float_ltb_iff_not_leb c 0.5
                (confidence_comparable c 0.5 Hc eq_refl)) as Hlo.
  pose proof (above_upper_above_lower c) as Hmono.
  destruct colour_classes_distinct as (Hgy & Hgg & Hyg).
  unfold Confidence.ConfidenceBadge.
  destruct (0.85 <=? c)%float eqn:E85; destruct (0.5 <=? c)%float eqn:E50;
    repeat split; try tauto; try congruence; intuition (try congruence).
Qed.

(** The tiers at the specification's sample confidences 0.9, 0.7 and 0.3, and
    at the two boundaries. *)
Example confidence_badge_samples :
  Confidence.ConfidenceBadge 0.9 = Confidence.green
  /\ Confidence.ConfidenceBadge 0.85 = Confidence.green
  /\ Confidence.ConfidenceBadge 0.7 = Confidence.yellow
  /\ Confidence.ConfidenceBadge 0.5 = Confidence.yellow
  /\ Confidence.ConfidenceBadge 0.3 = Confidence.gray.
Proof. repeat split. Qed.

(** The tiers at the confidence 0.7, a suggestion. *)
Lemma confidence_badge_tiers_witness :
  Confidence.in_unit_interval 0.7
  /\ Confidence.ConfidenceBadge 0.7 = Confidence.yellow.
Proof.
  assert (H : Confidence.in_unit_interval 0.7) by (split; reflexivity).
  split; [exact H|].
  apply (confidence_badge_tiers 0.7 H). split; reflexivity.
Defined.

(** ** The gates of the narration and compose pages *)

Section PipelineFacts.
Import Types Pipeline.

Lemma hasVisuals_iff (project : Project) :
  hasVisuals project = true
  <-> state project = visuals_done
      \/ state project = narration_done
      \/ state project = composed.
Proof.
  unfold hasVisuals. rewrite bool_decide_eq_true.
  rewrite !elem_of_cons, elem_of_nil. tauto.
Qed.

Lemma canCompose_iff (status : option ComposeStatusResponse) (project : Project) :
  canCompose status project = true
  <-> (exists st, status = Some st /\ can_compose st = true)
      \/ state project = narration_done.
Proof.
  unfold canCompose. rewrite orb_true_iff, bool_decide_eq_true.
  destruct status as [st|]; split; intros [H|H]; eauto.
  - destruct H as (st' & [= <-] & H). by left.
  - discriminate.
  - by destruct H as (? & [=] & _).
Qed.

Lemma panel_iff_canCompose status isPending isError videoUrl project :
  is_Some (panel (ComposeBody status isPending isError videoUrl project))
  <-> canCompose status project = true.
Proof.
  unfold ComposeBody. cbn [panel].
  destruct (canCompose status project); split; intros H; eauto.
  - by destruct H.
  - discriminate.
Qed.
End PipelineFacts.

(** C7. Once the project is loaded, the narration page offers the button that
    starts narration generation exactly when the project state is one of
    [visuals_done], [narration_done] and [composed], and shows the notice
    asking for the visuals first otherwise; the compose page offers the
    compose action exactly when the status answer reports [can_compose] or the
    project state is [narration_done], and shows the notice asking for the
    narration first otherwise. *)
Theorem stage_actions_gated_by_precursor :
  forall (project : Types.Project) (status : option Pipeline.ComposeStatusResponse)
         (isPending isError : bool) (videoUrl : option string),
    let narration := Pipeline.NarrationBody isPending isError project in
    let compose := Pipeline.ComposeBody status isPending isError videoUrl project in
    (is_Some (Pipeline.generateButton narration)
     <-> Types.state project = Types.visuals_done
         \/ Types.state project = Types.narration_done
         \/ Types.state project = Types.composed)
    /\ Pipeline.visualsMissingNotice narration
       = negb (bool_decide (is_Some (Pipeline.generateButton narration)))
    /\ (is_Some (Pipeline.panel compose)
        <-> (exists st, status = Some st /\ Pipeline.can_compose st = true)
            \/ Types.state project = Types.narration_done)
    /\ Pipeline.narrationMissingNotice compose
       = negb (bool_decide (is_Some (Pipeline.panel compose)))
    /\ Pipeline.NarrationPage false false (Some project) isPending isError
       = Pipeline.Loaded narration
    /\ Pipeline.ComposePage false false (Some project) status isPending isError videoUrl
       = Pipeline.Loaded compose.
Proof.
  intros project status isPending isError videoUrl narration compose.
  split; [|split; [|split; [|split; [|split]]]]; try reflexivity.
  - rewrite <- hasVisuals_iff. subst narration. unfold Pipeline.NarrationBody.
    cbn [Pipeline.generateButton].
    destruct (Pipeline.hasVisuals project); split; intros H; eauto.
    + by destruct H.
    + discriminate.
  - subst narration. unfold Pipeline.NarrationBody.
    cbn [Pipeline.generateButton Pipeline.visualsMissingNotice].
    by destruct (Pipeline.hasVisuals project).
  - rewrite <- canCompose_iff. apply panel_iff_canCompose.
  - subst compose. unfold Pipeline.ComposeBody.
    cbn [Pipeline.panel Pipeline.narrationMissingNotice].
    by destruct (Pipeline.canCompose status project).
Qed.




(** ** The stale frontier *)

Section DagFacts.
Import Dag.




End DagFacts.


(** The two frontiers the specification names. *)
Example staleFrontier_samples :
  Dag.staleFrontier {[ Dag.script ]}
    = [Dag.narration; Dag.images; Dag.animations; Dag.composition]
  /\ Dag.staleFrontier {[ Dag.narration ]} = [Dag.composition]
  /\ Dag.staleFrontier {[ Dag.script; Dag.narration ]}
     = [Dag.narration; Dag.images; Dag.animations; Dag.composition].
Proof. split; [|split]; vm_compute; reflexivity. Qed.

(** ** Scope and qualifier of a preference *)

Section PreferenceFacts.
Import Preferences.

Lemma onChange_within_options (f : NewPref) (e : FormEvent) :
  form_within_options f -> offered f e = true -> form_within_options (onChange f e).
Proof.
  intros [Hs Ht] He. destruct e; cbn in *; try (split; assumption).
  - apply bool_decide_eq_true in He. by split.
  - apply andb_true_iff in He as [_ He]. apply bool_decide_eq_true in He. by split.
Qed.

Lemma fill_within_options (events : list FormEvent) (f f' : NewPref) :
  form_within_options f -> fill f events = Some f' -> form_within_options f'.
Proof.
  revert f. induction events as [|e events IH]; intros f Hf; cbn.
  - by intros [= <-].
  - destruct (offered f e) eqn:He; [|discriminate].
    apply IH. by apply onChange_within_options.
Qed.

Lemma initialNewPref_within_options : form_within_options initialNewPref.
Proof. split; cbn; set_solver. Qed.

Lemma table_accepts_columns (r : PreferenceRow) :
  table_accepts r = true ->
  category r ∈ ["style"; "structural"; "content"; "technical"]
  /\ scope r ∈ ["global"; "project"; "section_type"; "specific"]
  /\ (section_type r = None
      \/ exists t, section_type r = Some t
           /\ t ∈ ["title"; "slide"; "code"; "code_typing"; "diagram"; "summary"]).
Proof.
  unfold table_accepts, preferences_category_check, preferences_scope_check,
    preferences_section_type_check.
  rewrite !andb_true_iff, !bool_decide_eq_true. intros [[Hc Hs] Ht].
  split; [done|]. split; [done|].
  destruct (section_type r) as [t|]; [right|by left].
  exists t. split; [done|]. by apply bool_decide_eq_true in Ht.
Qed.
End PreferenceFacts.

(** C3 (as stated) fails on the manual creation form and on the table: after
    choosing the scope [section_type], the section type [code] and then the
    scope [global] again, the form submits scope [global] together with the
    section type [code]; choosing the scope [section_type] and no section
    type, it submits that scope without a qualifier; and the table's
    constraints hold for rows with these values. *)
Lemma scope_qualifier_counterexample :
  let stale := [Preferences.ChangeScope "section_type";
                Preferences.ChangeSectionType "code";
                Preferences.ChangeScope "global"] in
  let unset := [Preferences.ChangeScope "section_type"] in
  let row scope section_type :=
    {| Preferences.preference_id := "1"; Preferences.description := "d";
       Preferences.category := "style"; Preferences.scope := scope;
       Preferences.section_type := section_type; Preferences.project_id := None;
       Preferences.confidence := Some 0.7%float;
       Preferences.source_corrections := None; Preferences.is_active := Some true;
       Preferences.prompt_version := Some 1; Preferences.created_at := "";
       Preferences.updated_at := "" |} in
  (exists f data,
      Preferences.fill Preferences.initialNewPref stale = Some f
      /\ Preferences.handleCreate f = Preferences.createPreference data
      /\ Preferences.data_scope data = Some "global"
      /\ Preferences.data_section_type data = Some "code")
  /\ (exists f data,
        Preferences.fill Preferences.initialNewPref unset = Some f
        /\ Preferences.handleCreate f = Preferences.createPreference data
        /\ Preferences.data_scope data = Some "section_type"
        /\ Preferences.data_section_type data = None)
  /\ Preferences.table_accepts (row "global" (Some "code")) = true
  /\ Preferences.table_accepts (row "section_type" None) = true
  /\ ~ Preferences.scope_qualifier_paired "global" (Some "code") None
  /\ ~ Preferences.scope_qualifier_paired "section_type" None None.
Proof.
  cbv zeta. split; [|split; [|split; [|split; [|split]]]].
  - eexists _, _. repeat split.
  - eexists _, _. repeat split.
  - reflexivity.
  - reflexivity.
  - intros (_ & _ & H). by destruct (H eq_refl).
  - intros (H & _). by destruct (H eq_refl).
Qed.

(** C3 (as amended). Every request the manual creation form submits carries a
    scope among [global], [section_type] and [project] (never [specific]),
    no project id, and no section type or one of [title], [slide], [code] and
    [summary]; it satisfies the pairing of scope and qualifier whenever the
    form's section type field is filled in exactly when its scope is
    [section_type]. Every row the table's constraints accept has its
    category, its scope and its section type each within its own list; the
    constraints do not relate the qualifier to the scope. *)
Theorem manual_creation_scope_qualifier :
  forall (events : list Preferences.FormEvent) (f : Preferences.NewPref),
    Preferences.fill Preferences.initialNewPref events = Some f ->
    (exists data scope,
        Preferences.handleCreate f = Preferences.createPreference data
        /\ Preferences.data_scope data = Some scope
        /\ scope ∈ ["global"; "section_type"; "project"]
        /\ (Preferences.data_section_type data = None
            \/ exists t, Preferences.data_section_type data = Some t
                 /\ t ∈ ["title"; "slide"; "code"; "summary"])
        /\ (Preferences.qualifier_matches_scope f ->
            Preferences.scope_qualifier_paired
              scope (Preferences.data_section_type data) None))
    /\ (forall r : Preferences.PreferenceRow,
          Preferences.table_accepts r = true ->
          Preferences.category r ∈ ["style"; "structural"; "content"; "technical"]
          /\ Preferences.scope r ∈ ["global"; "project"; "section_type"; "specific"]
          /\ (Preferences.section_type r = None
              \/ exists t, Preferences.section_type r = Some t
                   /\ t ∈ ["title"; "slide"; "code"; "code_typing"; "diagram"; "summary"])).
Proof.
  intros events f Hfill. split; [|apply table_accepts_columns].
  destruct (fill_within_options events _ f initialNewPref_within_options Hfill)
    as [Hs Ht].
  eexists _, (Preferences.form_scope f). split; [reflexivity|].
  cbn [Preferences.data_scope Preferences.data_section_type].
  split; [reflexivity|]. split; [exact Hs|]. split.
  - destruct (String.eqb_spec (Preferences.form_section_type f) "") as [E|E];
      [by left|right].
    eexists. split; [reflexivity|].
    unfold Preferences.section_type_options in Ht.
    apply elem_of_cons in Ht as [Ht|Ht]; [done|exact Ht].
  - intros Hm. unfold Preferences.qualifier_matches_scope in Hm.
    unfold Preferences.scope_qualifier_paired.
    destruct (String.eqb_spec (Preferences.form_section_type f) "") as [E|E].
    + split; [|split].
      * intros Hsc. apply Hm in Hsc. done.
      * intros Hsc. rewrite Hsc in Hs. unfold Preferences.scope_options in Hs.
        rewrite !elem_of_cons, elem_of_nil in Hs.
        destruct Hs as [?|[?|[?|[]]]]; discriminate.
      * done.
    + split; [|split].
      * eauto.
      * intros Hsc. rewrite Hsc in Hs. unfold Preferences.scope_options in Hs.
        rewrite !elem_of_cons, elem_of_nil in Hs.
        destruct Hs as [?|[?|[?|[]]]]; discriminate.
      * intros Hsc. apply Hm in E. rewrite Hsc in E. discriminate.
Qed.

(** The form filled in for a preference on code sections. *)
Lemma manual_creation_scope_qualifier_witness :
  let events := [Preferences.ChangeDescription "dark theme for code";
                 Preferences.ChangeScope "section_type";
                 Preferences.ChangeSectionType "code"] in
  exists f,
    Preferences.fill Preferences.initialNewPref events = Some f
    /\ exists data scope,
         Preferences.handleCreate f = Preferences.createPreference data
         /\ Preferences.data_scope data = Some scope
         /\ scope ∈ ["global"; "section_type"; "project"].
Proof.
  intros events.
  assert (Hfill : exists f, Preferences.fill Preferences.initialNewPref events = Some f)
    by (eexists; reflexivity).
  destruct Hfill as [f Hfill]. exists f. split; [exact Hfill|].
  destruct (manual_creation_scope_qualifier events f Hfill)
    as [(data & scope & H1 & H2 & H3 & _) _].
  exists data, scope. split; [exact H1|]. split; [exact H2|exact H3].
Defined.

(** ** Preferences are deactivated, not erased *)

Section BackendFacts.
Import Preferences Backend.
Implicit Types (prefs : gmap string PreferenceRow) (id : string).

Lemma insert_row_keeps prefs (r : PreferenceRow) id :
  is_Some (prefs !! id) -> is_Some (insert_row r prefs !! id).
Proof.
  intros Hid. unfold insert_row.
  destruct (table_accepts r); [|done].
  destruct (prefs !! preference_id r) eqn:E; [done|].
  rewrite lookup_insert_ne; [done|]. intros <-. rewrite E in Hid. by destruct Hid.
Qed.

Lemma alter_keeps (g : PreferenceRow -> PreferenceRow) prefs id id' :
  is_Some (prefs !! id) -> is_Some (alter g id' prefs !! id).
Proof.
  intros [r Hr]. destruct (decide (id' = id)) as [->|Hne].
  - rewrite lookup_alter_eq, Hr. by eexists.
  - rewrite lookup_alter_ne by done. by eexists.
Qed.
Lemma apply_write_keeps prefs (w : PreferenceWrite) id :
  is_Some (prefs !! id) -> is_Some (apply_write prefs w !! id).
Proof.
  intros Hid. destruct w as [row|id' c sources]; cbn.
  - by apply insert_row_keeps.
  - by apply alter_keeps.
Qed.

Lemma writes_keep (ws : list PreferenceWrite) prefs id :
  is_Some (prefs !! id) -> is_Some (foldl apply_write prefs ws !! id).
Proof.
  revert prefs. induction ws as [|w ws IH]; intros prefs Hid; cbn; [done|].
  apply IH. by apply apply_write_keeps.
Qed.

(** The log only grows: a request leaves the corrections recorded so far as
    they are, in their order, and adds at most one behind them. *)
Lemma correction_log_append_only
    (infer : list RecordCorrectionData -> option Z -> gmap string PreferenceRow
             -> list PreferenceWrite)
    (uuid now : string) (call : ApiCall) (s : Store) :
  corrections s `prefix_of` corrections (handle infer uuid now call s).
Proof.
  destruct call; cbn; try done. by apply prefix_app_r.
Qed.
End BackendFacts.

(** C2. The delete button of a preference issues the one removal request of
    the client, and that request deactivates the record: it stays in the
    store, with [is_active] false and all its other fields as they were. No
    request of the client erases a preference record: a record present before
    a request is present after it, whatever the Evolution Engine infers. *)
Theorem preferences_never_hard_deleted :
  forall (infer : list Preferences.RecordCorrectionData -> option Z
                  -> gmap string Preferences.PreferenceRow
                  -> list Backend.PreferenceWrite)
         (uuid now : string) (s : Backend.Store) (id : string)
         (r : Preferences.PreferenceRow),
    Backend.preferences s !! id = Some r ->
    Preferences.handleDelete id = Preferences.deletePreference id
    /\ Backend.preferences
         (Backend.handle infer uuid now (Preferences.handleDelete id) s) !! id
       = Some (Backend.with_active false r)
    /\ Preferences.is_active (Backend.with_active false r) = Some false
    /\ forall call : Preferences.ApiCall,
         is_Some (Backend.preferences (Backend.handle infer uuid now call s) !! id).
Proof.
  intros infer uuid now s id r Hr.
  split; [reflexivity|]. split; [|split; [reflexivity|]].
  - cbn. by rewrite lookup_alter_eq, Hr.
  - assert (Hid : is_Some (Backend.preferences s !! id)) by (by eexists).
    intros call. destruct call; cbn; try exact Hid.
    + by apply insert_row_keeps.
    + by apply alter_keeps.
    + by apply alter_keeps.
    + by apply writes_keep.
Qed.

(** Deleting the one preference of a store keeps it, deactivated. *)
Lemma preferences_never_hard_deleted_witness :
  let r :=
    {| Preferences.preference_id := "a1"; Preferences.description := "dark code";
       Preferences.category := "style"; Preferences.scope := "global";
       Preferences.section_type := None; Preferences.project_id := None;
       Preferences.confidence := Some 0.9%float;
       Preferences.source_corrections := None; Preferences.is_active := Some true;
       Preferences.prompt_version := Some 1; Preferences.created_at := "t0";
       Preferences.updated_at := "t0" |} in
  let s := {| Backend.preferences := {[ "a1" := r ]}; Backend.corrections := [] |} in
  let infer := fun _ _ _ => [Backend.Revise "a1" 0.95%float ["e1"]] in
  Backend.preferences s !! "a1" = Some r
  /\ Backend.preferences
       (Backend.handle infer "u" "t1" (Preferences.handleDelete "a1") s) !! "a1"
     = Some (Backend.with_active false r).
Proof.
  intros r s infer.
  assert (Hr : Backend.preferences s !! "a1" = Some r) by reflexivity.
  split; [exact Hr|].
  exact (proj1 (proj2 (preferences_never_hard_deleted infer "u" "t1" s "a1" r Hr))).
Defined.

(** ** Array primitives *)

Section ArrayFacts.
Context {T : Type}.
Implicit Types (l : list T).

Lemma mapi_from_length {U : Type} (f : T -> nat -> U) l (i : nat) :
  length (Js.mapi_from f l i) = length l.
Proof. revert i. induction l as [|x l IH]; intros i; cbn; [done|]. by rewrite IH. Qed.

Lemma mapi_from_index {U : Type} (g : nat -> U) l (i : nat) :
  Js.mapi_from (fun _ j => g j) l i = g <$> seq i (length l).
Proof.
  revert i. induction l as [|x l IH]; intros i; cbn; [done|]. by rewrite IH.
Qed.

Lemma filteri_from_app (p : T -> nat -> bool) l1 l2 (i : nat) :
  Js.filteri_from p (l1 ++ l2) i
  = Js.filteri_from p l1 i ++ Js.filteri_from p l2 (i + length l1)%nat.
Proof.
  revert i. induction l1 as [|x l1 IH]; intros i; cbn.
  - by rewrite Nat.add_0_r.
  - rewrite IH. replace (S i + length l1)%nat with (i + S (length l1))%nat by lia.
    by destruct (p x i).
Qed.

Lemma filteri_from_all (p : T -> nat -> bool) l (i : nat) :
  (forall x j, (i <= j < i + length l)%nat -> p x j = true) ->
  Js.filteri_from p l i = l.
Proof.
  revert i. induction l as [|x l IH]; intros i Hp; cbn; [done|].
  rewrite Hp by (cbn; lia). f_equal. apply IH. intros y j Hj. apply Hp. cbn. lia.
Qed.

Lemma filteri_from_none (p : T -> nat -> bool) l (i : nat) :
  (forall x j, (i <= j < i + length l)%nat -> p x j = false) ->
  Js.filteri_from p l i = [].
Proof.
  revert i. induction l as [|x l IH]; intros i Hp; cbn; [done|].
  rewrite Hp by (cbn; lia). apply IH. intros y j Hj. apply Hp. cbn. lia.
Qed.

(** Filtering out the positions [from .. from + count - 1]. *)
Lemma filteri_outside_range (p : T -> nat -> bool) l (from count : nat) :
  (forall x j, p x j = negb (bool_decide (from <= j < from + count)%nat)) ->
  Js.filteri p l = take from l ++ drop (from + count) l.
Proof.
  intros Hp. unfold Js.filteri.
  rewrite <- (take_drop from l) at 1.
  rewrite <- (take_drop count (drop from l)) at 1.
  rewrite drop_drop.
  rewrite !filteri_from_app. cbn [plus].
  rewrite filteri_from_all, filteri_from_none, filteri_from_all; [done| | |].
  - intros x j Hj. rewrite Hp, bool_decide_eq_false_2; [done|].
    rewrite !length_take, !length_drop in Hj. lia.
  - intros x j Hj. rewrite Hp, bool_decide_eq_true_2; [done|].
    rewrite !length_take, !length_drop in Hj. lia.
  - intros x j Hj. rewrite Hp, bool_decide_eq_false_2; [done|].
    rewrite length_take in Hj. lia.
Qed.

Lemma splice_insert l (start : nat) (items : list T) :
  (start <= length l)%nat ->
  fst (Js.splice l (Z.of_nat start) 0 items) = take start l ++ items ++ drop start l.
Proof.
  intros Hs. unfold Js.splice. cbn [fst].
  rewrite rel_index_in_range by lia. rewrite Nat2Z.id.
  replace (Z.to_nat _) with 0%nat by lia. by rewrite Nat.add_0_r.
Qed.

Lemma splice_replace_one l (index : nat) (items : list T) :
  (index < length l)%nat ->
  fst (Js.splice l (Z.of_nat index) 1 items)
  = take index l ++ items ++ drop (S index) l.
Proof.
  intros Hs. unfold Js.splice. cbn [fst].
  rewrite rel_index_in_range by lia. rewrite Nat2Z.id.
  replace (Z.to_nat _) with 1%nat by lia. by rewrite Nat.add_1_r.
Qed.
End ArrayFacts.

(** ** The selection of sections to merge *)

Section SelectionFacts.
Import ScriptEditor.
Implicit Types (selected : gset nat) (sections : list ScriptSectionData).

Lemma consecutive_from (a : nat) (l : list nat) :
  consecutive (a :: l) = true -> a :: l = seq a (S (length l)).
Proof.
  revert a. induction l as [|b l IH]; intros a; [done|].
  cbn [consecutive]. destruct (Z.eqb_spec (Z.of_nat b - Z.of_nat a) 1) as [E|]; [|done].
  intros H. apply IH in H. replace b with (S a) in * by lia.
  cbn [length]. rewrite H at 1. reflexivity.
Qed.

Lemma consecutive_is_seq (l : list nat) :
  consecutive l = true -> l = seq (default 0%nat (head l)) (length l).
Proof. destruct l as [|a l]; [done|]. apply consecutive_from. Qed.

Lemma seq_is_consecutive (from count : nat) : consecutive (seq from count) = true.
Proof.
  revert from. induction count as [|[|count] IH]; intros from; [done|done|].
  specialize (IH (S from)). cbn [seq consecutive] in *.
  destruct (Z.eqb_spec (Z.of_nat (S from) - Z.of_nat from) 1); [done|lia].
Qed.

Lemma seq_sorted (from count : nat) : Sorted le (seq from count).
Proof.
  revert from. induction count as [|count IH]; intros from; cbn; [constructor|].
  constructor; [apply IH|]. destruct count; cbn; constructor. lia.
Qed.

(** A selection that is a run of positions sorts to that run. *)
Lemma sorted_run selected (from count : nat) :
  (forall i, i ∈ selected <-> (from <= i < from + count)%nat) ->
  merge_sort le (elements selected) = seq from count /\ size selected = count.
Proof.
  intros Hrun.
  assert (Hperm : elements selected ≡ₚ seq from count).
  { apply NoDup_Permutation; [apply NoDup_elements|apply NoDup_seq|].
    intros i. rewrite elem_of_elements, elem_of_seq. apply Hrun. }
  split.
  - apply (Sorted_unique le).
    + apply Sorted_merge_sort. intros x y. lia.
    + apply seq_sorted.
    + by rewrite merge_sort_Permutation.
  - unfold size, set_size. cbn. rewrite Hperm. apply length_seq.
Qed.

(** A selection whose sorted positions pass the adjacency loop is a run. *)
Lemma consecutive_run selected :
  consecutive (merge_sort le (elements selected)) = true ->
  exists from, forall i, i ∈ selected <-> (from <= i < from + size selected)%nat.
Proof.
  intros Hc. apply consecutive_is_seq in Hc.
  set (sorted := merge_sort le (elements selected)) in *.
  assert (Hlen : length sorted = size selected).
  { unfold sorted. by rewrite merge_sort_Permutation. }
  exists (default 0%nat (head sorted)). intros i.
  rewrite <- Hlen, <- elem_of_seq, <- Hc. unfold sorted.
  by rewrite merge_sort_Permutation, elem_of_elements.
Qed.

Lemma lookup_run sections (from count : nat) :
  (from + count <= length sections)%nat ->
  mapM (fun i => sections !! i) (seq from count)
  = Some (take count (drop from sections)).
Proof.
  intros Hlen. apply mapM_Some. apply Forall2_same_length_lookup. split.
  - rewrite length_seq, length_take, length_drop. lia.
  - intros j i s Hi Hs. apply lookup_seq in Hi as [-> Hj].
    rewrite lookup_take_lt, lookup_drop in Hs by done. done.
Qed.

Lemma lookup_run_beyond sections (from count : nat) :
  (0 < count)%nat ->
  (length sections < from + count)%nat ->
  mapM (fun i => sections !! i) (seq from count) = None.
Proof.
  intros Hcount Hlen. apply mapM_None. apply Exists_exists.
  exists (from + count - 1)%nat. split.
  - apply elem_of_seq. lia.
  - apply lookup_ge_None. lia.
Qed.
End SelectionFacts.

(** ** Merging the selected sections *)

Section MergeFacts.
Import ScriptEditor.
Implicit Types (selected : gset nat) (sections : list ScriptSectionData).

Lemma merge_applies sections selected (from count : nat) :
  (2 <= count)%nat ->
  (forall i, i ∈ selected <-> (from <= i < from + count)%nat) ->
  (from + count <= length sections)%nat ->
  exists first,
    sections !! from = Some first
    /\ handleMergeSelected sections selected
       = SetSections (merged_list sections from count first).
Proof.
  intros Hcount Hrun Hlen.
  destruct (sorted_run selected from count Hrun) as [Hsorted Hsize].
  destruct (lookup_lt_is_Some_2 sections from) as [first Hfirst]; [lia|].
  exists first. split; [done|].
  unfold handleMergeSelected. rewrite Hsize, Hsorted.
  destruct (Z.ltb_spec (Z.of_nat count) 2) as [|_]; [lia|].
  rewrite seq_is_consecutive. cbn [negb].
  rewrite lookup_run by done.
  assert (Htake : take count (drop from sections)
                  = first :: take (count - 1) (drop (S from) sections)).
  { rewrite (drop_S _ _ _ Hfirst). destruct count; [lia|]. cbn.
    by rewrite Nat.sub_0_r. }
  rewrite Htake. cbv beta iota. rewrite <- Htake. f_equal.
  rewrite (filteri_outside_range _ sections from count).
  2:{ intros x j. f_equal. apply bool_decide_ext. apply Hrun. }
  destruct count as [|count']; [lia|]. cbn [seq head default].
  unfold id. rewrite splice_insert by (rewrite length_app, length_take, length_drop; lia).
  unfold merged_list. f_equal.
  - rewrite take_app_le by (rewrite length_take; lia).
    rewrite take_take. f_equal. lia.
  - f_equal. rewrite drop_app_ge by (rewrite length_take; lia).
    rewrite length_take. replace (from - from `min` length sections)%nat with 0%nat by lia.
    by rewrite drop_0.
Qed.

Lemma merge_throws sections selected (from count : nat) :
  (2 <= count)%nat ->
  (forall i, i ∈ selected <-> (from <= i < from + count)%nat) ->
  (length sections < from + count)%nat ->
  handleMergeSelected sections selected = Throws.
Proof.
  intros Hcount Hrun Hlen.
  destruct (sorted_run selected from count Hrun) as [Hsorted Hsize].
  unfold handleMergeSelected. rewrite Hsize, Hsorted.
  destruct (Z.ltb_spec (Z.of_nat count) 2) as [|_]; [lia|].
  rewrite seq_is_consecutive. cbn [negb].
  by rewrite lookup_run_beyond by lia.
Qed.

Lemma merge_alerts sections selected :
  ~ ((2 <= size selected)%nat
     /\ exists from, forall i, i ∈ selected <-> (from <= i < from + size selected)%nat) ->
  exists message, handleMergeSelected sections selected = Alert message.
Proof.
  intros Hnot. unfold handleMergeSelected.
  destruct (Z.ltb_spec (Z.of_nat (size selected)) 2) as [|Hsize]; [by eexists|].
  destruct (consecutive (merge_sort le (elements selected))) eqn:Hc; [|by eexists].
  destruct Hnot. split; [lia|]. by apply consecutive_run.
Qed.

Lemma merge_inversion sections selected (newSections : list ScriptSectionData) :
  handleMergeSelected sections selected = SetSections newSections ->
  exists from first,
    (2 <= size selected)%nat
    /\ (forall i, i ∈ selected <-> (from <= i < from + size selected)%nat)
    /\ (from + size selected <= length sections)%nat
    /\ sections !! from = Some first
    /\ newSections = merged_list sections from (size selected) first.
Proof.
  intros Hout.
  destruct (decide ((2 <= size selected)%nat)) as [Hsize|Hsize].
  2:{ destruct (merge_alerts sections selected) as [m Hm]; [tauto|congruence]. }
  destruct (consecutive (merge_sort le (elements selected))) eqn:Hc.
  2:{ unfold handleMergeSelected in Hout. rewrite Hc in Hout.
      destruct (Z.ltb_spec (Z.of_nat (size selected)) 2); discriminate. }
  destruct (consecutive_run selected Hc) as [from Hrun].
  destruct (decide (from + size selected <= length sections)%nat) as [Hlen|Hlen].
  - destruct (merge_applies sections selected from _ Hsize Hrun Hlen)
      as (first & Hfirst & Heq).
    exists from, first. split; [done|]. split; [done|]. split; [done|].
    split; [done|]. congruence.
  - rewrite (merge_throws sections selected from (size selected)) in Hout; [done..|lia].
Qed.

Lemma merged_list_length sections (from count : nat) (first : ScriptSectionData) :
  (from + count <= length sections)%nat ->
  (length (merged_list sections from count first) + count = length sections + 1)%nat.
Proof.
  intros Hlen. unfold merged_list.
  rewrite !length_app, length_take, length_drop. cbn [length]. lia.
Qed.
End MergeFacts.

(** C9. Merging leaves the section list as it is unless at least two sections
    are selected and the selected positions form a run [from .. from + k - 1]:
    the handler then only alerts. When they do and the run lies within the
    list, the handler stores the list in which the run is replaced, at
    position [from], by one section whose duration is the sum, from 0 and in
    list order, of the selected durations with an absent one counted as 0,
    whose narration is the selected narrations joined with a line feed, and
    whose type and visual_spec are those of the first selected section; the
    list is shorter by [k - 1]. (A run that reaches beyond the list makes the
    handler throw, and the list stays.) *)
Theorem merge_selected_sections :
  forall (ed : ScriptEditor.Editor)
         (sections : list ScriptEditor.ScriptSectionData) (selected : gset nat),
    (~ ((2 <= size selected)%nat
        /\ exists from,
             forall i, i ∈ selected <-> (from <= i < from + size selected)%nat) ->
     (exists message,
         ScriptEditor.handleMergeSelected sections selected
         = ScriptEditor.Alert message)
     /\ ScriptEditor.perform
          (ScriptEditor.handleMergeSelected sections selected) ed = Some ed)
    /\ (forall from : nat,
          (2 <= size selected)%nat ->
          (forall i, i ∈ selected <-> (from <= i < from + size selected)%nat) ->
          (from + size selected <= length sections)%nat ->
          exists first merged,
            let chosen := take (size selected) (drop from sections) in
            let newSections :=
              take from sections ++ [merged] ++ drop (from + size selected) sections in
            sections !! from = Some first
            /\ ScriptEditor.handleMergeSelected sections selected
               = ScriptEditor.SetSections newSections
            /\ ScriptEditor.duration merged
               = Some (foldl (fun sum s => (sum + ScriptEditor.duration_or_zero s)%float)
                             0%float chosen)
            /\ ScriptEditor.narration merged
               = Utf16.join Utf16.newline
                   (List.map ScriptEditor.narration chosen)
            /\ ScriptEditor.type merged = ScriptEditor.type first
            /\ ScriptEditor.visual_spec merged = ScriptEditor.visual_spec first
            /\ newSections !! from = Some merged
            /\ (length newSections + (size selected - 1) = length sections)%nat
            /\ ScriptEditor.sections
                 (ScriptEditor.state (ScriptEditor.setSections newSections ed))
               = newSections)
    /\ (forall from : nat,
          (2 <= size selected)%nat ->
          (forall i, i ∈ selected <-> (from <= i < from + size selected)%nat) ->
          (length sections < from + size selected)%nat ->
          ScriptEditor.handleMergeSelected sections selected = ScriptEditor.Throws
          /\ ScriptEditor.perform
               (ScriptEditor.handleMergeSelected sections selected) ed = Some ed).
Proof.
  intros ed sections selected. split; [|split].
  - intros Hnot. destruct (merge_alerts sections selected Hnot) as [m Hm].
    split; [by exists m|]. by rewrite Hm.
  - intros from Hsize Hrun Hlen.
    destruct (merge_applies sections selected from _ Hsize Hrun Hlen)
      as (first & Hfirst & Heq).
    exists first, (ScriptEditor.mergedSection first
                     (take (size selected) (drop from sections))).
    cbv zeta. split; [done|]. split; [exact Heq|].
    repeat (split; [reflexivity|]). split; [|split; [|reflexivity]].
    + rewrite lookup_app_r by (rewrite length_take; lia).
      rewrite length_take. by replace (from - from `min` length sections)%nat with 0%nat by lia.
    + pose proof (merged_list_length sections from (size selected) first Hlen) as Hl.
      unfold ScriptEditor.merged_list in Hl. lia.
  - intros from Hsize Hrun Hlen.
    rewrite (merge_throws sections selected from _ Hsize Hrun Hlen). done.
Qed.

(** Merging the second and third of four sections, one without a duration. *)
Lemma merge_selected_sections_witness :
  let section n d :=
    {| ScriptEditor.type := "slide"; ScriptEditor.duration := d;
       ScriptEditor.narration := Utf16.lit n; ScriptEditor.visual_spec := None |} in
  let sections :=
    [section "a" (Some 1%float); section "b" None;
     section "c" (Some 2.5%float); section "d" (Some 4%float)] in
  let ed :=
    {| ScriptEditor.history :=
         UndoRedo.useUndoRedo
           {| ScriptEditor.title := "t"; ScriptEditor.description := "";
              ScriptEditor.sections := sections |};
       ScriptEditor.selectedIndices := {[ 1%nat; 2%nat ]} |} in
  exists merged,
    ScriptEditor.handleMergeSelected sections {[ 1%nat; 2%nat ]}
    = ScriptEditor.SetSections
        [section "a" (Some 1%float); merged; section "d" (Some 4%float)]
    /\ ScriptEditor.duration merged = Some 2.5%float
    /\ ScriptEditor.narration merged = Utf16.lit "b" ++ Utf16.newline ++ Utf16.lit "c".
Proof.
  intros section sections ed.
  destruct (merge_selected_sections ed sections {[ 1%nat; 2%nat ]}) as (_ & Happly & _).
  destruct (Happly 1%nat) as (first & merged & _ & Hout & Hd & Hn & _).
  - vm_compute. lia.
  - intros i. change (size _) with 2%nat.
    rewrite elem_of_union, !elem_of_singleton. lia.
  - vm_compute. lia.
  - exists merged. split; [exact Hout|]. split; [exact Hd|exact Hn].
Defined.

(** ** The order of the sections after an edit *)

Section OrderFacts.
Import ScriptEditor.
Implicit Types (sections : list ScriptSectionData).

Lemma cardIndices_seq sections : cardIndices sections = seq 0 (length sections).
Proof.
  unfold cardIndices, Js.mapi.
  rewrite (mapi_from_index (fun j => j)). apply list_fmap_id.
Qed.

Lemma sectionIds_seq sections :
  sectionIds sections = (fun i => "section-" +:+ pretty i) <$> seq 0 (length sections).
Proof. unfold sectionIds, Js.mapi. apply (mapi_from_index (fun j => "section-" +:+ pretty j)). Qed.

Lemma indexOf_from_range {T : Type} `{EqDecision T} (l : list T) (x : T) (i : Z) :
  Js.indexOf_from l x i = -1
  \/ i <= Js.indexOf_from l x i < i + Z.of_nat (length l).
Proof.
  revert i. induction l as [|y l IH]; intros i; cbn [Js.indexOf_from length]; [by left|].
  destruct (decide (y = x)); [right; lia|].
  destruct (IH (i + 1)) as [->|?]; [by left|right; lia].
Qed.

Lemma indexOf_range {T : Type} `{EqDecision T} (l : list T) (x : T) :
  -1 <= Js.indexOf l x < Z.of_nat (length l).
Proof. unfold Js.indexOf. destruct (indexOf_from_range l x 0); lia. Qed.

Lemma splice_insert_anywhere {T : Type} (l : list T) (start : Z) (items : list T) :
  exists k : nat, fst (Js.splice l start 0 items) = take k l ++ items ++ drop k l.
Proof.
  exists (Js.rel_index (length l) start). unfold Js.splice. cbn [fst].
  replace (Z.to_nat _) with 0%nat by lia. by rewrite Nat.add_0_r.
Qed.

Lemma splice_remove_one {T : Type} (l : list T) (start : Z) :
  l <> [] -> -1 <= start < Z.of_nat (length l) ->
  exists (k : nat) (item : T),
    l !! k = Some item
    /\ Js.splice l start 1 [] = (take k l ++ drop (S k) l, [item]).
Proof.
  intros Hne Hstart.
  assert (Hlen : (0 < length l)%nat) by (destruct l; [done|cbn; lia]).
  set (k := Js.rel_index (length l) start).
  assert (Hk : (k < length l)%nat).
  { unfold k, Js.rel_index. destruct (Z.ltb_spec start 0); lia. }
  destruct (lookup_lt_is_Some_2 l k Hk) as [item Hitem].
  exists k, item. split; [done|]. unfold Js.splice. fold k.
  replace (Z.to_nat _) with 1%nat by lia. cbn [app].
  rewrite Nat.add_1_r. f_equal.
  by rewrite (drop_S _ _ _ Hitem).
Qed.

Lemma arrayMove_permutation {T : Type} (array : list T) (from to : Z) :
  array <> [] -> -1 <= from < Z.of_nat (length array) ->
  exists moved, arrayMove array from to = Some moved /\ moved ≡ₚ array.
Proof.
  intros Hne Hfrom. unfold arrayMove.
  destruct (splice_remove_one array from Hne Hfrom) as (k & item & Hitem & ->).
  set (target := if to <? 0 then _ else _).
  destruct (splice_insert_anywhere (take k array ++ drop (S k) array) target [item])
    as [j ->].
  eexists. split; [reflexivity|].
  set (rest := take k array ++ drop (S k) array).
  trans (item :: rest).
  - cbn [app]. by rewrite <- Permutation_middle, take_drop.
  - unfold rest. by rewrite Permutation_middle, take_drop_middle.
Qed.

Lemma deleteSection_result sections (index : nat) (newSections : list ScriptSectionData) :
  deleteSection sections index = SetSections newSections ->
  newSections = take index sections ++ drop (S index) sections.
Proof.
  unfold deleteSection. destruct (_ <=? 1); [done|]. intros [= <-].
  rewrite (filteri_outside_range _ sections index 1).
  - by rewrite Nat.add_1_r.
  - intros x j. f_equal. apply bool_decide_ext. lia.
Qed.

Lemma splitSectionAtPosition_result sections (index : nat) (position : Z)
    (newSections : list ScriptSectionData) :
  splitSectionAtPosition sections index position = SetSections newSections ->
  exists firstHalf secondHalf,
    (index < length sections)%nat
    /\ newSections
       = take index sections ++ [firstHalf; secondHalf] ++ drop (S index) sections.
Proof.
  unfold splitSectionAtPosition.
  destruct (sections !! index) as [section|] eqn:Hs; [|done].
  apply lookup_lt_Some in Hs.
  destruct (_ || _); [done|]. intros Heq.
  eexists _, _. split; [done|].
  rewrite <- (splice_replace_one sections index _ Hs).
  injection Heq as Heq. symmetry. exact Heq.
Qed.

Lemma handleDragEnd_result sections (event : DragEndEvent)
    (newSections : list ScriptSectionData) :
  handleDragEnd sections event = SetSections newSections ->
  newSections ≡ₚ sections.
Proof.
  unfold handleDragEnd. destruct (over event) as [over_id|]; [|done].
  destruct (negb _); [|done].
  destruct sections as [|s sections].
  - unfold arrayMove. cbn. done.
  - destruct (arrayMove_permutation (s :: sections)
                (Js.indexOf (sectionIds (s :: sections)) (active event))
                (Js.indexOf (sectionIds (s :: sections)) over_id))
      as (moved & -> & Hperm); [done| |by intros [= <-]].
    pose proof (indexOf_range (sectionIds (s :: sections)) (active event)) as Hr.
    unfold sectionIds, Js.mapi in Hr. rewrite mapi_from_length in Hr. exact Hr.
Qed.
End OrderFacts.

(** X22. A delete that goes through stores the list without the section at
    the given position and with the other sections in their order (the list
    itself when the position lies beyond it); it goes through exactly when
    the list holds more than one section, and alerts otherwise. A drag that
    stores a list stores a permutation of the list; a drag of a card onto
    another card of a list that holds a section always stores one, and a
    drag that ends nowhere or on the dragged card itself does nothing. *)
Theorem delete_and_drag_keep_the_rest :
  forall sections : list ScriptEditor.ScriptSectionData,
    (forall index newSections,
        ScriptEditor.deleteSection sections index
        = ScriptEditor.SetSections newSections ->
        newSections = take index sections ++ drop (S index) sections
        /\ ((index < length sections)%nat -> S (length newSections) = length sections)
        /\ ((length sections <= index)%nat -> newSections = sections))
    /\ (forall index,
          (1 < length sections)%nat
          <-> exists newSections,
                ScriptEditor.deleteSection sections index
                = ScriptEditor.SetSections newSections)
    /\ (forall index,
          (length sections <= 1)%nat ->
          ScriptEditor.deleteSection sections index
          = ScriptEditor.Alert ScriptEditor.AtLeastOneSection)
    /\ (forall event newSections,
          ScriptEditor.handleDragEnd sections event
          = ScriptEditor.SetSections newSections ->
          newSections ≡ₚ sections /\ length newSections = length sections)
    /\ (forall event over_id,
          sections <> [] ->
          ScriptEditor.over event = Some over_id ->
          ScriptEditor.active event <> over_id ->
          exists newSections,
            ScriptEditor.handleDragEnd sections event
            = ScriptEditor.SetSections newSections)
    /\ (forall event,
          ScriptEditor.over event = None
          \/ ScriptEditor.over event = Some (ScriptEditor.active event) ->
          ScriptEditor.handleDragEnd sections event = ScriptEditor.Nothing).
Proof.
  intros sections.
  split; [|split; [|split; [|split; [|split]]]].
  - intros index newSections Hout.
    apply deleteSection_result in Hout as ->. split; [reflexivity|]. split.
    + intros Hi. rewrite length_app, length_take, length_drop. lia.
    + intros Hi. rewrite take_ge by lia. rewrite drop_ge by lia. apply app_nil_r.
  - intros index. unfold ScriptEditor.deleteSection.
    destruct (Z.leb_spec (Z.of_nat (length sections)) 1); split.
    + lia.
    + by intros [? ?].
    + by eexists.
    + lia.
  - intros index Hlen. unfold ScriptEditor.deleteSection.
    destruct (Z.leb_spec (Z.of_nat (length sections)) 1); [reflexivity|lia].
  - intros event newSections Hout.
    apply handleDragEnd_result in Hout. split; [done|]. by rewrite Hout.
  - intros event over_id Hne Hover Hdiff.
    unfold ScriptEditor.handleDragEnd. rewrite Hover.
    destruct (String.eqb_spec (ScriptEditor.active event) over_id); [done|].
    cbn [negb].
    destruct (arrayMove_permutation sections
                (Js.indexOf (ScriptEditor.sectionIds sections) (ScriptEditor.active event))
                (Js.indexOf (ScriptEditor.sectionIds sections) over_id))
      as (moved & -> & _); [done| |by eexists].
    pose proof (indexOf_range (ScriptEditor.sectionIds sections)
                  (ScriptEditor.active event)) as Hr.
    unfold ScriptEditor.sectionIds, Js.mapi in Hr.
    rewrite mapi_from_length in Hr. exact Hr.
  - intros event Hover. unfold ScriptEditor.handleDragEnd.
    destruct Hover as [-> | ->]; [reflexivity|].
    by rewrite String.eqb_refl.
Qed.

(** Deleting the third of four sections. *)
Lemma delete_and_drag_keep_the_rest_witness :
  let section n :=
    {| ScriptEditor.type := "slide"; ScriptEditor.duration := Some 1%float;
       ScriptEditor.narration := Utf16.lit n; ScriptEditor.visual_spec := None |} in
  let sections := [section "a"; section "b"; section "c"; section "d"] in
  let newSections := [section "a"; section "b"; section "d"] in
  ScriptEditor.deleteSection sections 2 = ScriptEditor.SetSections newSections
  /\ S (length newSections) = length sections.
Proof.
  intros section sections newSections.
  assert (Hout : ScriptEditor.deleteSection sections 2
                 = ScriptEditor.SetSections newSections) by reflexivity.
  split; [exact Hout|].
  destruct (proj1 (delete_and_drag_keep_the_rest sections) 2%nat newSections Hout)
    as (_ & Hlen & _).
  apply Hlen. cbn. lia.
Defined.

(** The four edits on a list of four sections. *)
Example section_edits_samples :
  let section n :=
    {| ScriptEditor.type := "slide"; ScriptEditor.duration := Some 1%float;
       ScriptEditor.narration := Utf16.lit n; ScriptEditor.visual_spec := None |} in
  let sections := [section "a"; section "b c"; section "d"; section "e"] in
  let narrations o :=
    match o with
    | ScriptEditor.SetSections l => Some (List.map ScriptEditor.narration l)
    | _ => None
    end in
  narrations (ScriptEditor.splitSectionAtPosition sections 1 1)
    = Some (Utf16.lit <$> ["a"; "b"; "c"; "d"; "e"])
  /\ narrations (ScriptEditor.deleteSection sections 2)
     = Some (Utf16.lit <$> ["a"; "b c"; "e"])
  /\ narrations
       (ScriptEditor.handleDragEnd sections
          {| ScriptEditor.active := "section-3"; ScriptEditor.over := Some "section-1" |})
     = Some (Utf16.lit <$> ["a"; "e"; "b c"; "d"])
  /\ narrations
       (ScriptEditor.handleDragEnd sections
          {| ScriptEditor.active := "section-0"; ScriptEditor.over := Some "section-2" |})
     = Some (Utf16.lit <$> ["b c"; "d"; "a"; "e"])
  /\ ScriptEditor.cardIndices sections = [0; 1; 2; 3]%nat
  /\ ScriptEditor.sectionIds sections
     = ["section-0"; "section-1"; "section-2"; "section-3"].
Proof. cbv zeta. repeat split; vm_compute; reflexivity. Qed.

(** * Further properties of the code *)

(** ** The undo/redo hook, continued *)

Section UndoRedoMore.
Import UndoRedo.
Context {T : Type}.
Implicit Types (h : History T) (s : T).

Lemma undo_timeline h : timeline (undo h) = timeline h.
Proof.
  destruct h as [l p f]. destruct l as [|x l _] using rev_ind; [done|].
  rewrite undo_after_push. unfold timeline. cbn [past present future].
  by rewrite <- app_assoc.
Qed.

Lemma redo_timeline h : timeline (redo h) = timeline h.
Proof.
  destruct h as [l p [|q f]]; [done|].
  rewrite redo_after_pop. unfold timeline. cbn [past present future].
  by rewrite <- app_assoc.
Qed.

Lemma run_snoc (maxHistory : Z) (init : T) (acts : list (action T)) (a : action T) :
  run maxHistory init (acts ++ [a]) = step maxHistory (run maxHistory init acts) a.
Proof. unfold run. by rewrite foldl_snoc. Qed.
End UndoRedoMore.

(** X1. [undo] and [redo] are inverse to each other wherever they act: a
    [redo] after an [undo] on a non-empty past gives the hook state back, and
    so does an [undo] after a [redo] on a non-empty future. *)
Theorem undo_redo_inverse :
  forall (T : Type) (h : UndoRedo.History T),
    (UndoRedo.past h <> [] -> UndoRedo.redo (UndoRedo.undo h) = h)
    /\ (UndoRedo.future h <> [] -> UndoRedo.undo (UndoRedo.redo h) = h).
Proof.
  intros T [l p f]. cbn [UndoRedo.past UndoRedo.future]. split; intros Hne.
  - destruct l as [|x l _] using rev_ind; [done|].
    by rewrite undo_after_push, redo_after_pop.
  - destruct f as [|q f]; [done|].
    by rewrite redo_after_pop, undo_after_push.
Qed.

(** A hook state with two past states and one future state. *)
Lemma undo_redo_inverse_witness :
  let h := {| UndoRedo.past := [1; 2]%nat; UndoRedo.present := 3%nat;
              UndoRedo.future := [4%nat] |} in
  UndoRedo.redo (UndoRedo.undo h) = h /\ UndoRedo.undo (UndoRedo.redo h) = h.
Proof.
  intros h. destruct (undo_redo_inverse nat h) as [Hur Hru].
  split; [apply Hur|apply Hru]; discriminate.
Defined.

(** X2. Stepping back and forth never loses or reorders a state: after any
    sequence of [undo] and [redo] calls the past, the present and the future
    together are the same list of states as before. *)
Theorem undo_redo_keep_timeline :
  forall (T : Type) (maxHistory : Z) (h : UndoRedo.History T)
         (acts : list (UndoRedo.action T)),
    Forall (fun a => a = UndoRedo.Undo \/ a = UndoRedo.Redo) acts ->
    UndoRedo.timeline (foldl (UndoRedo.step maxHistory) h acts)
    = UndoRedo.timeline h.
Proof.
  intros T maxHistory h acts Hacts. revert h.
  induction Hacts as [|a acts [-> | ->] _ IH]; intros h; cbn [foldl]; [done| |].
  - rewrite IH. apply undo_timeline.
  - rewrite IH. apply redo_timeline.
Qed.

(** Three steps back and one forth from the state after three edits. *)
Lemma undo_redo_keep_timeline_witness :
  let h := UndoRedo.run 10 0%nat
             [UndoRedo.SetState 1%nat; UndoRedo.SetState 2%nat; UndoRedo.SetState 3%nat] in
  let acts := [UndoRedo.Undo; UndoRedo.Undo; UndoRedo.Redo; UndoRedo.Undo] in
  Forall (fun a => a = UndoRedo.Undo \/ a = UndoRedo.Redo) acts
  /\ UndoRedo.timeline (foldl (UndoRedo.step 10) h acts) = [0; 1; 2; 3]%nat.
Proof.
  intros h acts.
  assert (Hacts : Forall (fun a => a = UndoRedo.Undo \/ a = UndoRedo.Redo) acts).
  { repeat constructor; (by left) || (by right). }
  split; [exact Hacts|].
  rewrite (undo_redo_keep_timeline nat 10 h acts Hacts). reflexivity.
Defined.

(** X3. The hook keeps the most recent states: after a run of [setState]
    calls from the initial state, the present is the last state set and the
    past holds the states before it, oldest first, cut down to the last
    [maxHistory] of them. *)
Theorem setState_keeps_most_recent :
  forall (T : Type) (maxHistory : Z) (init : T) (states : list T),
    0 <= maxHistory ->
    let h := UndoRedo.run maxHistory init (UndoRedo.SetState <$> states) in
    let previous := take (length states) (init :: states) in
    UndoRedo.present h = default init (last states)
    /\ UndoRedo.past h = drop (length states - Z.to_nat maxHistory) previous
    /\ UndoRedo.future h = [].
Proof.
  intros T maxHistory init states Hmax. cbv zeta.
  induction states as [|s states IH] using rev_ind; [done|].
  rewrite fmap_app. cbn [fmap list_fmap]. rewrite run_snoc. cbn [UndoRedo.step].
  destruct IH as (Hpresent & Hpast & _).
  set (h := UndoRedo.run maxHistory init (UndoRedo.SetState <$> states)) in *.
  assert (Hall : take (length states) (init :: states) ++ [UndoRedo.present h]
                 = init :: states).
  { rewrite Hpresent. destruct states as [|x states _] using rev_ind; [done|].
    rewrite last_snoc. cbn [default]. rewrite app_comm_cons.
    rewrite length_app. cbn [length].
    replace (length states + 1)%nat with (length (init :: states)) by (cbn; lia).
    by rewrite take_app_length. }
  split; [by rewrite last_snoc|]. split; [|done].
  remember (length states) as n eqn:Hn. remember (Z.to_nat maxHistory) as m eqn:Hm.
  assert (Hnew : UndoRedo.past h ++ [UndoRedo.present h]
                 = drop (n - m) (init :: states)).
  { rewrite Hpast. rewrite <- Hall at 2. rewrite drop_app_le; [done|].
    rewrite length_take. cbn [length]. lia. }
  assert (Hrhs : take (length (states ++ [s])) (init :: states ++ [s])
                 = init :: states).
  { rewrite app_comm_cons, length_app. cbn [length].
    replace (length states + 1)%nat with (length (init :: states)) by (cbn; lia).
    by rewrite take_app_length. }
  rewrite Hrhs. rewrite length_app. cbn [length]. rewrite <- Hn.
  unfold UndoRedo.setState. cbn [UndoRedo.past]. rewrite Hnew.
  assert (Hlen : length (drop (n - m) (init :: states)) = (S n - (n - m))%nat).
  { rewrite length_drop. cbn [length]. lia. }
  unfold Js.slice_from. rewrite Hlen.
  destruct (Z.ltb_spec maxHistory (Z.of_nat (S n - (n - m)))) as [Hlt|Hge].
  - rewrite rel_index_in_range by lia. rewrite drop_drop. f_equal. lia.
  - f_equal. lia.
Qed.

(** Twelve edits with the editor's [maxHistory = 10]. *)
Lemma setState_keeps_most_recent_witness :
  let states := seq 1 12 in
  let h := UndoRedo.run 10 0%nat (UndoRedo.SetState <$> states) in
  0 <= 10
  /\ UndoRedo.present h = 12%nat
  /\ UndoRedo.past h = seq 2 10.
Proof.
  intros states h.
  assert (Hmax : 0 <= 10) by lia. split; [exact Hmax|].
  destruct (setState_keeps_most_recent nat 10 0%nat states Hmax) as (Hp & Hq & _).
  split; [exact Hp|exact Hq].
Defined.

(** X4. A key event triggers at most one of [undo] and [redo], and none
    without the Ctrl or the Meta key: [undo] exactly for Ctrl/Meta+z without
    Shift, [redo] exactly for Ctrl/Meta+z with Shift or Ctrl/Meta+y; a
    disabled listener calls nothing. *)
Theorem shortcuts_exclusive :
  forall e : UndoRedo.KeyboardEvent,
    (UndoRedo.handleKeyDown e = []
     \/ UndoRedo.handleKeyDown e = [UndoRedo.CallUndo]
     \/ UndoRedo.handleKeyDown e = [UndoRedo.CallRedo])
    /\ (UndoRedo.handleKeyDown e <> [] ->
        UndoRedo.ctrlKey e = true \/ UndoRedo.metaKey e = true)
    /\ (UndoRedo.handleKeyDown e = [UndoRedo.CallUndo] ->
        UndoRedo.key e = "z" /\ UndoRedo.shiftKey e = false)
    /\ (UndoRedo.handleKeyDown e = [UndoRedo.CallRedo] ->
        (UndoRedo.key e = "z" /\ UndoRedo.shiftKey e = true) \/ UndoRedo.key e = "y")
    /\ UndoRedo.useUndoRedoKeyboard false e = []
    /\ UndoRedo.useUndoRedoKeyboard true e = UndoRedo.handleKeyDown e.
Proof.
  intros [c m s k]. unfold UndoRedo.useUndoRedoKeyboard, UndoRedo.handleKeyDown.
  cbn [UndoRedo.ctrlKey UndoRedo.metaKey UndoRedo.shiftKey UndoRedo.key].
  assert (Hz : String.eqb k "z" = true -> k = "z") by apply String.eqb_eq.
  assert (Hy : String.eqb k "y" = true -> k = "y") by apply String.eqb_eq.
  assert (Hzy : String.eqb k "z" = true -> String.eqb k "y" = true -> False).
  { intros E1 E2. apply Hz in E1. apply Hy in E2. congruence. }
  destruct (String.eqb k "z"), (String.eqb k "y"), c, m, s; cbn;
    repeat split; auto; try discriminate; try (intros; exfalso; auto; fail);
    intros; auto.
Qed.

(** Ctrl+z without Shift. *)
Lemma shortcuts_exclusive_witness :
  let e := {| UndoRedo.ctrlKey := true; UndoRedo.metaKey := false;
              UndoRedo.shiftKey := false; UndoRedo.key := "z" |} in
  UndoRedo.handleKeyDown e = [UndoRedo.CallUndo]
  /\ UndoRedo.key e = "z" /\ UndoRedo.shiftKey e = false.
Proof.
  intros e.
  assert (Hundo : UndoRedo.handleKeyDown e = [UndoRedo.CallUndo]) by reflexivity.
  split; [exact Hundo|].
  exact (proj1 (proj2 (proj2 (shortcuts_exclusive e))) Hundo).
Defined.

(** ** The script editor, continued *)

Section EditorMore.
Import ScriptEditor.
Implicit Types (sections : list ScriptSectionData) (ed : Editor).

(** The two sections a split puts in place of [section]. *)
Lemma split_applies sections (index : nat) (position : Z) (section : ScriptSectionData) :
  sections !! index = Some section ->
  0 < position < Z.of_nat (Utf16.length (narration section)) ->
  splitSectionAtPosition sections index position
  = SetSections
      (take index sections
       ++ [ {| type := type section; duration := duration section;
               narration := Utf16.trim (Utf16.slice (narration section) 0 position);
               visual_spec := visual_spec section |};
            {| type := type section; duration := Some 0%float;
               narration := Utf16.trim (Utf16.slice_from (narration section) position);
               visual_spec := Some (default ∅ (visual_spec section)) |} ]
       ++ drop (S index) sections).
Proof.
  intros Hs Hpos. unfold splitSectionAtPosition. rewrite Hs.
  destruct (Z.leb_spec position 0); [lia|].
  destruct (Z.leb_spec (Z.of_nat (Utf16.length (narration section))) position); [lia|].
  cbn [orb]. f_equal. apply splice_replace_one. by eapply lookup_lt_Some.
Qed.

Lemma addSection_result sections (afterIndex : Z) :
  -1 <= afterIndex < Z.of_nat (length sections) ->
  addSection sections afterIndex
  = SetSections (take (Z.to_nat (afterIndex + 1)) sections
                 ++ [newSection] ++ drop (Z.to_nat (afterIndex + 1)) sections).
Proof.
  intros Hi. unfold addSection. f_equal.
  rewrite <- (Z2Nat.id (afterIndex + 1)) at 1 by lia.
  apply splice_insert. lia.
Qed.

Lemma indexOf_from_fmap_seq {A : Type} `{EqDecision A} (f : nat -> A) `{!Inj (=) (=) f}
    (from count offset : nat) (z : Z) :
  (offset < count)%nat ->
  Js.indexOf_from (f <$> seq from count) (f (from + offset)%nat) z = z + Z.of_nat offset.
Proof.
  revert from offset z. induction count as [|count IH]; intros from offset z Ho; [lia|].
  cbn [seq fmap list_fmap Js.indexOf_from].
  destruct offset as [|offset].
  - rewrite Nat.add_0_r. rewrite decide_True by done. lia.
  - rewrite decide_False by (intros Heq%(inj f); lia).
    replace (from + S offset)%nat with (S from + offset)%nat by lia.
    rewrite IH by lia. lia.
Qed.

(** The id of a card is found at the position of the card. *)
Lemma indexOf_sectionIds sections (i : nat) :
  (i < length sections)%nat ->
  Js.indexOf (sectionIds sections) ("section-" +:+ pretty i) = Z.of_nat i.
Proof.
  intros Hi. rewrite sectionIds_seq. unfold Js.indexOf.
  assert (Hinj : Inj (=) (=) (fun i : nat => "section-" +:+ pretty i)).
  { intros a b Hab. by apply (inj (String.app "section-")), (inj pretty) in Hab. }
  apply (indexOf_from_fmap_seq (fun i : nat => "section-" +:+ pretty i) 0 _ i 0 Hi).
Qed.

Lemma arrayMove_in_range {T : Type} (array : list T) (from to : nat) (item : T) :
  array !! from = Some item -> (to < length array)%nat ->
  arrayMove array (Z.of_nat from) (Z.of_nat to)
  = Some (take to (delete from array) ++ item :: drop to (delete from array)).
Proof.
  intros Hitem Hto. pose proof (lookup_lt_Some _ _ _ Hitem) as Hfrom.
  unfold arrayMove, Js.splice.
  rewrite rel_index_in_range by lia. rewrite Nat2Z.id.
  replace (Z.to_nat (0 `max` (1 `min` Z.of_nat (length array - from)))) with 1%nat by lia.
  rewrite (drop_S _ _ _ Hitem). cbn [take app fst].
  destruct (Z.ltb_spec (Z.of_nat to) 0); [lia|].
  rewrite Nat.add_1_r. rewrite <- delete_take_drop.
  assert (Hlen : length (delete from array) = (length array - 1)%nat).
  { rewrite length_delete; [lia|by eexists]. }
  rewrite rel_index_in_range by lia. rewrite Nat2Z.id.
  replace (Z.to_nat _) with 0%nat by lia. by rewrite Nat.add_0_r.
Qed.
End EditorMore.

(** X5. Setting a field of a section's visual settings stores the value
    under that field and leaves every other field, and the type, duration and
    narration of the section, as they were; a section without settings gets a
    record with just that field; a later value for the same field replaces
    the earlier one, and values for different fields can be set in either
    order. *)
Theorem updateVisualSpec_sets_one_field :
  forall (section : ScriptEditor.ScriptSectionData) (field : string)
         (value : Types.json),
    let updated := ScriptEditor.updateVisualSpec section field value in
    (exists settings,
        ScriptEditor.visual_spec updated = Some settings
        /\ settings !! field = Some value
        /\ (forall other, other <> field ->
              settings !! other
              = default ∅ (ScriptEditor.visual_spec section) !! other))
    /\ ScriptEditor.type updated = ScriptEditor.type section
    /\ ScriptEditor.duration updated = ScriptEditor.duration section
    /\ ScriptEditor.narration updated = ScriptEditor.narration section
    /\ (ScriptEditor.visual_spec section = None ->
        ScriptEditor.visual_spec updated = Some {[ field := value ]})
    /\ (forall value',
          ScriptEditor.updateVisualSpec updated field value'
          = ScriptEditor.updateVisualSpec section field value')
    /\ (forall field' value',
          field' <> field ->
          ScriptEditor.updateVisualSpec updated field' value'
          = ScriptEditor.updateVisualSpec
              (ScriptEditor.updateVisualSpec section field' value') field value).
Proof.
  intros section field value. cbv zeta. unfold ScriptEditor.updateVisualSpec.
  cbn [ScriptEditor.visual_spec ScriptEditor.type ScriptEditor.duration
       ScriptEditor.narration default].
  split; [|split; [done|split; [done|split; [done|split; [|split]]]]].
  - eexists. split; [done|]. split; [apply lookup_insert_eq|].
    intros other Hne. by rewrite lookup_insert_ne.
  - intros ->. cbn [default]. by rewrite insert_empty.
  - intros value'. cbn. by rewrite insert_insert_eq.
  - intros field' value' Hne. cbn. f_equal. f_equal. by apply insert_insert_ne.
Qed.

(** A heading for a section that has no visual settings yet. *)
Lemma updateVisualSpec_sets_one_field_witness :
  let section := {| ScriptEditor.type := "slide"; ScriptEditor.duration := Some 5%float;
                    ScriptEditor.narration := Utf16.lit "intro";
                    ScriptEditor.visual_spec := None |} in
  ScriptEditor.visual_spec section = None
  /\ ScriptEditor.visual_spec
       (ScriptEditor.updateVisualSpec section "heading" (Types.JStr "Intro"))
     = Some {[ "heading" := Types.JStr "Intro" ]}.
Proof.
  intros section.
  pose proof (updateVisualSpec_sets_one_field section "heading" (Types.JStr "Intro")) as H.
  cbv zeta in H. destruct H as (_ & _ & _ & _ & Hnone & _).
  split; [reflexivity|]. apply Hnone. reflexivity.
Defined.

(** X6. No handler of the editor empties the list: whenever [updateSection],
    [deleteSection], [splitSectionAtPosition], [handleMergeSelected],
    [addSection] or [handleDragEnd] stores a list for a list that holds a
    section, the stored list holds at least one section too. *)
Theorem editor_keeps_a_section :
  forall (sections newSections : list ScriptEditor.ScriptSectionData),
    sections <> [] ->
    (forall index updated,
        ScriptEditor.updateSection sections index updated
        = ScriptEditor.SetSections newSections -> newSections <> [])
    /\ (forall index,
          ScriptEditor.deleteSection sections index
          = ScriptEditor.SetSections newSections -> newSections <> [])
    /\ (forall index position,
          ScriptEditor.splitSectionAtPosition sections index position
          = ScriptEditor.SetSections newSections -> newSections <> [])
    /\ (forall selected,
          ScriptEditor.handleMergeSelected sections selected
          = ScriptEditor.SetSections newSections -> newSections <> [])
    /\ (forall afterIndex,
          ScriptEditor.addSection sections afterIndex
          = ScriptEditor.SetSections newSections -> newSections <> [])
    /\ (forall event,
          ScriptEditor.handleDragEnd sections event
          = ScriptEditor.SetSections newSections -> newSections <> []).
Proof.
  intros sections newSections Hne.
  assert (Hpos : forall l : list ScriptEditor.ScriptSectionData,
             (0 < length l)%nat -> l <> []) by (intros [|] ?; [cbn in *; lia|done]).
  assert (Hlen : (0 < length sections)%nat) by (destruct sections; [done|cbn; lia]).
  split; [|split; [|split; [|split; [|split]]]].
  - intros index updated. unfold ScriptEditor.updateSection.
    repeat case_decide; intros [= <-]; apply Hpos.
    + rewrite length_insert. lia.
    + rewrite length_app. cbn. lia.
  - intros index Hout. apply Hpos.
    assert (Hmany : (1 < length sections)%nat).
    { unfold ScriptEditor.deleteSection in Hout.
      destruct (Z.leb_spec (Z.of_nat (length sections)) 1); [discriminate|lia]. }
    apply deleteSection_result in Hout as ->.
    rewrite length_app, length_take, length_drop. lia.
  - intros index position Hout. apply Hpos.
    apply splitSectionAtPosition_result in Hout as (a & b & _ & ->).
    rewrite !length_app. cbn. lia.
  - intros selected Hout. apply Hpos.
    apply merge_inversion in Hout as (from & first & _ & _ & _ & _ & ->).
    unfold ScriptEditor.merged_list. rewrite !length_app. cbn. lia.
  - intros afterIndex. unfold ScriptEditor.addSection. intros Heq.
    destruct (splice_insert_anywhere sections (afterIndex + 1) [ScriptEditor.newSection])
      as [k Hk].
    rewrite Hk in Heq. injection Heq as <-.
    apply Hpos. rewrite !length_app. cbn. lia.
  - intros event Hout. apply handleDragEnd_result in Hout.
    intros ->. apply Permutation_nil_l in Hout. done.
Qed.

(** A list of two sections under each handler. *)
Lemma editor_keeps_a_section_witness :
  let section n :=
    {| ScriptEditor.type := "slide"; ScriptEditor.duration := Some 1%float;
       ScriptEditor.narration := Utf16.lit n; ScriptEditor.visual_spec := None |} in
  let sections := [section "a"; section "b"] in
  sections <> []
  /\ ScriptEditor.deleteSection sections 0 = ScriptEditor.SetSections [section "b"]
  /\ [section "b"] <> [].
Proof.
  intros section sections.
  assert (Hne : sections <> []) by discriminate.
  assert (Hdel : ScriptEditor.deleteSection sections 0
                 = ScriptEditor.SetSections [section "b"]) by reflexivity.
  split; [exact Hne|]. split; [exact Hdel|].
  destruct (editor_keeps_a_section sections [section "b"] Hne) as (_ & Hd & _).
  exact (Hd 0%nat Hdel).
Defined.

(** X7. [addSection] puts the new section right behind the card it was
    called from and moves nothing else: the sections up to that card stay, the
    new section follows, the remaining sections follow it. The button below
    the list, which passes [sections.length - 1], appends the new section,
    also to an empty list. *)
Theorem addSection_inserts_below :
  forall (sections : list ScriptEditor.ScriptSectionData),
    (forall index : nat,
        (index < length sections)%nat ->
        ScriptEditor.addSection sections (Z.of_nat index)
        = ScriptEditor.SetSections
            (take (S index) sections ++ [ScriptEditor.newSection]
             ++ drop (S index) sections)
        /\ (take (S index) sections ++ [ScriptEditor.newSection]
            ++ drop (S index) sections) !! S index
           = Some ScriptEditor.newSection)
    /\ ScriptEditor.addSection sections (Z.of_nat (length sections) - 1)
       = ScriptEditor.SetSections (sections ++ [ScriptEditor.newSection]).
Proof.
  intros sections. split.
  - intros index Hi. split.
    + rewrite addSection_result by lia.
      by replace (Z.to_nat (Z.of_nat index + 1)) with (S index) by lia.
    + rewrite lookup_app_r by (rewrite length_take; lia).
      rewrite length_take. by replace (S index - _)%nat with 0%nat by lia.
  - rewrite addSection_result by lia.
    replace (Z.to_nat (Z.of_nat (length sections) - 1 + 1)) with (length sections) by lia.
    by rewrite take_ge, drop_ge by lia.
Qed.

(** A new section below the first of two cards. *)
Lemma addSection_inserts_below_witness :
  let a := {| ScriptEditor.type := "title"; ScriptEditor.duration := Some 5%float;
              ScriptEditor.narration := Utf16.lit "a"; ScriptEditor.visual_spec := None |} in
  let b := {| ScriptEditor.type := "slide"; ScriptEditor.duration := Some 7%float;
              ScriptEditor.narration := Utf16.lit "b"; ScriptEditor.visual_spec := None |} in
  (0 < length [a; b])%nat
  /\ ScriptEditor.addSection [a; b] 0
     = ScriptEditor.SetSections [a; ScriptEditor.newSection; b].
Proof.
  intros a b.
  assert (Hlt : (0 < length [a; b])%nat) by (cbn; lia).
  split; [exact Hlt|].
  exact (proj1 (proj1 (addSection_inserts_below [a; b]) 0%nat Hlt)).
Defined.

(** X8. Splitting a section and merging the two halves again gives the list
    back with that one section changed: it keeps its type and its visual
    settings, its narration is the two trimmed halves joined by a line feed,
    and its duration is the sum, from 0, of its own duration (counted as 0
    when absent) and the 0 of the second half. *)
Theorem merge_after_split :
  forall (sections : list ScriptEditor.ScriptSectionData) (index : nat)
         (position : Z) (section : ScriptEditor.ScriptSectionData),
    sections !! index = Some section ->
    0 < position < Z.of_nat (Utf16.length (ScriptEditor.narration section)) ->
    exists halves merged,
      ScriptEditor.splitSectionAtPosition sections index position
      = ScriptEditor.SetSections halves
      /\ ScriptEditor.handleMergeSelected halves {[ index; S index ]}
         = ScriptEditor.SetSections (<[index := merged]> sections)
      /\ ScriptEditor.type merged = ScriptEditor.type section
      /\ ScriptEditor.visual_spec merged = ScriptEditor.visual_spec section
      /\ ScriptEditor.narration merged
         = Utf16.trim (Utf16.slice (ScriptEditor.narration section) 0 position)
           ++ Utf16.newline
           ++ Utf16.trim (Utf16.slice_from (ScriptEditor.narration section) position)
      /\ ScriptEditor.duration merged
         = Some ((0 + ScriptEditor.duration_or_zero section) + 0)%float.
Proof.
  intros sections index position section Hs Hpos.
  pose proof (lookup_lt_Some _ _ _ Hs) as Hi.
  rewrite (split_applies sections index position section Hs Hpos).
  set (firstHalf := {| ScriptEditor.type := ScriptEditor.type section;
                       ScriptEditor.duration := ScriptEditor.duration section |}).
  set (secondHalf := {| ScriptEditor.duration := Some 0%float |}).
  set (halves := take index sections ++ [firstHalf; secondHalf] ++ drop (S index) sections).
  assert (Hsize : size ({[ index; S index ]} : gset nat) = 2%nat).
  { rewrite size_union, !size_singleton; [done|].
    apply disjoint_singleton_l, not_elem_of_singleton. lia. }
  destruct (merge_applies halves {[ index; S index ]} index 2) as (first & Hfirst & Hout).
  { lia. }
  { intros i. rewrite elem_of_union, !elem_of_singleton. lia. }
  { unfold halves. rewrite !length_app, length_take, length_drop. cbn. lia. }
  assert (first = firstHalf) as ->.
  { unfold halves in Hfirst. rewrite lookup_app_r in Hfirst by (rewrite length_take; lia).
    rewrite length_take in Hfirst.
    replace (index - index `min` length sections)%nat with 0%nat in Hfirst by lia.
    by injection Hfirst as <-. }
  exists halves, (ScriptEditor.mergedSection firstHalf [firstHalf; secondHalf]).
  split; [done|]. split; [|by repeat split].
  rewrite Hout. f_equal. unfold ScriptEditor.merged_list.
  assert (Hlt : length (take index sections) = index) by (rewrite length_take; lia).
  assert (Hdrop : forall k, drop (index + k) halves
                            = drop k ([firstHalf; secondHalf] ++ drop (S index) sections)).
  { intros k. unfold halves. rewrite drop_app_ge by lia. f_equal. lia. }
  assert (Htake : take index halves = take index sections).
  { unfold halves. rewrite take_app_le by lia. rewrite take_take. f_equal. lia. }
  rewrite Htake, (Hdrop 2%nat).
  rewrite <- (Nat.add_0_r index) at 2. rewrite (Hdrop 0%nat).
  cbn [drop take app].
  by rewrite insert_take_drop by done.
Qed.

(** Splitting a narration of eight characters at the ideographic space
    (U+3000) in its middle and merging again. *)
Lemma merge_after_split_witness :
  let section :=
    {| ScriptEditor.type := "slide"; ScriptEditor.duration := Some 3%float;
       ScriptEditor.narration := Utf16.lit "はじめに　つぎに";
       ScriptEditor.visual_spec := None |} in
  [section] !! 0%nat = Some section
  /\ Utf16.length (ScriptEditor.narration section) = 8%nat
  /\ exists halves merged,
       ScriptEditor.splitSectionAtPosition [section] 0 4 = ScriptEditor.SetSections halves
       /\ ScriptEditor.handleMergeSelected halves {[ 0%nat; 1%nat ]}
          = ScriptEditor.SetSections (<[0%nat := merged]> [section])
       /\ ScriptEditor.narration merged
          = Utf16.lit "はじめに" ++ Utf16.newline ++ Utf16.lit "つぎに".
Proof.
  intros section.
  assert (Hs : [section] !! 0%nat = Some section) by reflexivity.
  assert (Hlen : Utf16.length (ScriptEditor.narration section) = 8%nat)
    by (vm_compute; reflexivity).
  assert (Hpos : 0 < 4 < Z.of_nat (Utf16.length (ScriptEditor.narration section)))
    by (rewrite Hlen; lia).
  split; [exact Hs|]. split; [exact Hlen|].
  destruct (merge_after_split [section] 0 4 section Hs Hpos)
    as (halves & merged & H1 & H2 & _ & _ & H3 & _).
  exists halves, merged. split; [exact H1|]. split; [exact H2|].
  rewrite H3. vm_compute. reflexivity.
Defined.

(** X9. A split asked for from a section card with Ctrl/Meta+e never runs
    into the editor's invalid-position alert or into an exception: the card
    hands over a position only when it lies strictly inside the narration, so
    the key either does nothing or stores a list that is one section longer;
    it splits exactly when the modifier and the key match and the caret is
    strictly inside the narration. *)
Theorem card_split_never_alerts :
  forall (sections : list ScriptEditor.ScriptSectionData) (index : nat)
         (section : ScriptEditor.ScriptSectionData)
         (e : UndoRedo.KeyboardEvent) (selectionStart : Z) (cursorPosition : option Z),
    sections !! index = Some section ->
    let outcome := ScriptEditor.cardKeyDown sections index e selectionStart cursorPosition in
    let splits :=
      (UndoRedo.metaKey e = true \/ UndoRedo.ctrlKey e = true)
      /\ UndoRedo.key e = "e"
      /\ 0 < selectionStart < Z.of_nat (Utf16.length (ScriptEditor.narration section)) in
    (splits ->
     exists newSections,
       outcome = ScriptEditor.SetSections newSections
       /\ length newSections = S (length sections)
       /\ outcome = ScriptEditor.splitSectionAtPosition sections index selectionStart)
    /\ (~ splits -> outcome = ScriptEditor.Nothing).
Proof.
  intros sections index section e selectionStart cursorPosition Hs. cbv zeta.
  unfold ScriptEditor.cardKeyDown, ScriptEditor.handleTextareaKeyDown,
    ScriptEditor.handleSplit.
  rewrite Hs. cbn [from_option].
  destruct (Z.ltb_spec 0 selectionStart) as [H0|H0];
    destruct (Z.ltb_spec selectionStart
                (Z.of_nat (Utf16.length (ScriptEditor.narration section)))) as [H1|H1];
    destruct (String.eqb_spec (UndoRedo.key e) "e") as [Hk|Hk];
    destruct (UndoRedo.metaKey e), (UndoRedo.ctrlKey e); cbn [orb andb];
    (split; [intros (Hm & Hkey & Hrange)|intros Hnot]);
    try done; try lia; try (destruct Hm; discriminate);
    try (destruct Hnot; split; [auto|split; [done|lia]]).
  all: rewrite (split_applies sections index selectionStart section Hs) by lia;
    eexists; (split; [reflexivity|]); (split; [|reflexivity]);
    pose proof (lookup_lt_Some _ _ _ Hs);
    rewrite !length_app, length_take, length_drop; cbn; lia.
Qed.

(** Ctrl+e in the card of the default new section, whose narration has 25
    characters: a caret before the last character splits, a caret at the end
    does nothing. *)
Lemma card_split_never_alerts_witness :
  let section := ScriptEditor.newSection in
  let e := {| UndoRedo.ctrlKey := true; UndoRedo.metaKey := false;
              UndoRedo.shiftKey := false; UndoRedo.key := "e" |} in
  [section] !! 0%nat = Some section
  /\ Utf16.length (ScriptEditor.narration section) = 25%nat
  /\ (exists newSections,
        ScriptEditor.cardKeyDown [section] 0 e 24 None
        = ScriptEditor.SetSections newSections
        /\ length newSections = 2%nat)
  /\ ScriptEditor.cardKeyDown [section] 0 e 25 None = ScriptEditor.Nothing.
Proof.
  intros section e.
  assert (Hs : [section] !! 0%nat = Some section) by reflexivity.
  assert (Hlen : Utf16.length (ScriptEditor.narration section) = 25%nat)
    by (vm_compute; reflexivity).
  split; [exact Hs|]. split; [exact Hlen|]. split.
  - destruct (card_split_never_alerts [section] 0 section e 24 None Hs) as [Hsplit _].
    destruct Hsplit as (newSections & Hout & Hnew & _).
    + split; [by right|]. split; [reflexivity|]. rewrite Hlen. lia.
    + exists newSections. split; [exact Hout|exact Hnew].
  - destruct (card_split_never_alerts [section] 0 section e 25 None Hs) as [_ Hnot].
    apply Hnot. intros (_ & _ & Hpos). rewrite Hlen in Hpos. lia.
Defined.

(** X10. Dropping the card at position [i] onto the card at position [j]
    puts section [i] at position [j] and keeps the other sections in their
    order: the stored list is the list without section [i], with that section
    put in at [j]. *)
Theorem drag_moves_section_to_target :
  forall (sections : list ScriptEditor.ScriptSectionData) (i j : nat)
         (moved : ScriptEditor.ScriptSectionData),
    sections !! i = Some moved ->
    (j < length sections)%nat ->
    i <> j ->
    let event := {| ScriptEditor.active := "section-" +:+ pretty i;
                    ScriptEditor.over := Some ("section-" +:+ pretty j) |} in
    let others := delete i sections in
    ScriptEditor.handleDragEnd sections event
    = ScriptEditor.SetSections (take j others ++ moved :: drop j others)
    /\ (take j others ++ moved :: drop j others) !! j = Some moved.
Proof.
  intros sections i j moved Hi Hj Hij. cbv zeta.
  pose proof (lookup_lt_Some _ _ _ Hi) as Hilt.
  assert (Hlen : length (delete i sections) = (length sections - 1)%nat).
  { rewrite length_delete; [lia|by eexists]. }
  split.
  - unfold ScriptEditor.handleDragEnd. cbn [ScriptEditor.over ScriptEditor.active].
    destruct (String.eqb_spec ("section-" +:+ pretty i) ("section-" +:+ pretty j))
      as [Heq|_].
    { apply (inj (String.app "section-")), (inj pretty) in Heq. done. }
    cbn [negb]. rewrite !indexOf_sectionIds by done.
    by rewrite (arrayMove_in_range sections i j moved Hi Hj).
  - rewrite lookup_app_r by (rewrite length_take; lia).
    rewrite length_take. by replace (j - j `min` _)%nat with 0%nat by lia.
Qed.

(** The last of three cards dropped onto the first. *)
Lemma drag_moves_section_to_target_witness :
  let section n :=
    {| ScriptEditor.type := "slide"; ScriptEditor.duration := None;
       ScriptEditor.narration := Utf16.lit n; ScriptEditor.visual_spec := None |} in
  let sections := [section "a"; section "b"; section "c"] in
  sections !! 2%nat = Some (section "c")
  /\ ScriptEditor.handleDragEnd sections
       {| ScriptEditor.active := "section-" +:+ pretty 2%nat;
          ScriptEditor.over := Some ("section-" +:+ pretty 0%nat) |}
     = ScriptEditor.SetSections [section "c"; section "a"; section "b"].
Proof.
  intros section sections.
  assert (Hi : sections !! 2%nat = Some (section "c")) by reflexivity.
  split; [exact Hi|].
  refine (proj1 (drag_moves_section_to_target sections 2 0 (section "c") Hi _ _)).
  - cbn. lia.
  - discriminate.
Defined.

(** X11. Whatever a handler of the editor stores can be taken back: one undo
    after [setSections] brings back the editor state from before, a redo
    after that undo brings the stored list back, and the selection is empty
    after [setSections] while undo and redo leave it as it is. *)
Theorem stored_edit_can_be_undone :
  forall (ed : ScriptEditor.Editor)
         (newSections : list ScriptEditor.ScriptSectionData),
    let stored := ScriptEditor.setSections newSections ed in
    ScriptEditor.sections (ScriptEditor.state stored) = newSections
    /\ ScriptEditor.state (ScriptEditor.undo stored) = ScriptEditor.state ed
    /\ ScriptEditor.state (ScriptEditor.redo (ScriptEditor.undo stored))
       = ScriptEditor.state stored
    /\ ScriptEditor.selectedIndices stored = ∅
    /\ ScriptEditor.selectedIndices (ScriptEditor.undo ed) = ScriptEditor.selectedIndices ed
    /\ ScriptEditor.selectedIndices (ScriptEditor.redo ed) = ScriptEditor.selectedIndices ed
    /\ UndoRedo.canUndo (ScriptEditor.history stored) = true.
Proof.
  intros ed newSections. cbv zeta.
  unfold ScriptEditor.state, ScriptEditor.undo, ScriptEditor.redo, ScriptEditor.setSections.
  cbn [ScriptEditor.history ScriptEditor.selectedIndices].
  match goal with
  | |- context [UndoRedo.setState 10 ?s (ScriptEditor.history ed)] =>
      destruct (setState_shape 10 s (ScriptEditor.history ed)) as [k ->]; [lia|]
  end.
  rewrite undo_after_push, redo_after_pop.
  cbn [UndoRedo.present ScriptEditor.sections].
  repeat (split; [reflexivity|]).
  unfold UndoRedo.canUndo. cbn [UndoRedo.past]. rewrite length_app. cbn [length].
  by destruct (Z.ltb_spec 0 (Z.of_nat (length (drop k (UndoRedo.past (ScriptEditor.history ed))) + 1))); [|lia].
Qed.

(** ** Moving a section with the buttons *)

Section MoveFacts.
Import ScriptEditor ButtonEditor.
Implicit Types (sections : list ScriptSectionData).

Lemma neighbours_split sections (index : nat) (here there : ScriptSectionData) :
  sections !! index = Some here -> sections !! S index = Some there ->
  sections = take index sections ++ here :: there :: drop (S (S index)) sections.
Proof.
  intros Hh Ht.
  rewrite <- (take_drop_middle sections index here Hh) at 1. do 2 f_equal.
  by rewrite (drop_S _ _ _ Ht).
Qed.

Lemma swap_neighbours sections (index : nat) (here there : ScriptSectionData) :
  sections !! index = Some here -> sections !! S index = Some there ->
  <[S index := here]> (<[index := there]> sections)
  = take index sections ++ there :: here :: drop (S (S index)) sections.
Proof.
  intros Hh Ht. pose proof (lookup_lt_Some _ _ _ Hh) as Hlt.
  assert (Hlen : length (take index sections) = index) by (rewrite length_take; lia).
  rewrite (neighbours_split sections index here there Hh Ht) at 1.
  rewrite insert_app_r_alt by lia. rewrite Hlen, Nat.sub_diag. cbn [insert list_insert].
  rewrite insert_app_r_alt by lia. rewrite Hlen.
  by replace (S index - index)%nat with 1%nat by lia.
Qed.
End MoveFacts.

(** X12. The down button makes a section change places with the section
    below it and touches no other section; the stored list is a permutation
    of the list; the up button on the moved section undoes it; and at the
    ends of the list, where the card disables the button, the handler does
    nothing. *)
Theorem moveSection_swaps_neighbours :
  forall (sections : list ScriptEditor.ScriptSectionData) (index : nat)
         (here there : ScriptEditor.ScriptSectionData),
    sections !! index = Some here ->
    sections !! S index = Some there ->
    let moved := take index sections ++ there :: here :: drop (S (S index)) sections in
    ButtonEditor.moveSection sections index ButtonEditor.down
    = ScriptEditor.SetSections moved
    /\ ButtonEditor.moveSection sections (S index) ButtonEditor.up
       = ScriptEditor.SetSections moved
    /\ moved ≡ₚ sections
    /\ ButtonEditor.moveSection moved (S index) ButtonEditor.up
       = ScriptEditor.SetSections sections
    /\ ButtonEditor.moveSection sections 0 ButtonEditor.up = ScriptEditor.Nothing
    /\ ButtonEditor.moveSection sections (length sections - 1) ButtonEditor.down
       = ScriptEditor.Nothing
    /\ ButtonEditor.moveDisabled (Z.of_nat (length sections)) 0 ButtonEditor.up = true
    /\ ButtonEditor.moveDisabled (Z.of_nat (length sections)) (length sections - 1)
         ButtonEditor.down = true.
Proof.
  intros sections index here there Hh Ht. cbv zeta.
  pose proof (lookup_lt_Some _ _ _ Ht) as Hlt.
  assert (Hdown : ButtonEditor.moveSection sections index ButtonEditor.down
                  = ScriptEditor.SetSections
                      (take index sections ++ there :: here :: drop (S (S index)) sections)).
  { unfold ButtonEditor.moveSection.
    destruct (Z.ltb_spec (Z.of_nat index + 1) 0); [lia|].
    destruct (Z.leb_spec (Z.of_nat (length sections)) (Z.of_nat index + 1)); [lia|].
    cbn [orb]. replace (Z.to_nat (Z.of_nat index + 1)) with (S index) by lia.
    rewrite Hh, Ht. f_equal. by apply swap_neighbours. }
  assert (Hup : forall l a b,
             l !! index = Some a -> l !! S index = Some b ->
             ButtonEditor.moveSection l (S index) ButtonEditor.up
             = ScriptEditor.SetSections
                 (take index l ++ b :: a :: drop (S (S index)) l)).
  { intros l a b Ha Hb. pose proof (lookup_lt_Some _ _ _ Hb).
    unfold ButtonEditor.moveSection.
    destruct (Z.ltb_spec (Z.of_nat (S index) - 1) 0); [lia|].
    destruct (Z.leb_spec (Z.of_nat (length l)) (Z.of_nat (S index) - 1)); [lia|].
    cbn [orb]. replace (Z.to_nat (Z.of_nat (S index) - 1)) with index by lia.
    rewrite Ha, Hb. f_equal.
    rewrite list_insert_insert_ne by lia. by apply swap_neighbours. }
  assert (Hlen : length (take index sections) = index) by (rewrite length_take; lia).
  split; [exact Hdown|]. split; [by apply Hup|]. split; [|split; [|split; [|split; [|split]]]].
  - rewrite (neighbours_split sections index here there Hh Ht) at 3.
    apply Permutation_app_head, perm_swap.
  - rewrite (Hup _ there here).
    + rewrite take_app_le, take_take, Nat.min_id by lia.
      rewrite drop_app_ge by lia. rewrite Hlen.
      replace (S (S index) - index)%nat with 2%nat by lia. cbn [drop].
      rewrite drop_0.
      by rewrite <- (neighbours_split sections index here there Hh Ht).
    + rewrite lookup_app_r by lia. by rewrite Hlen, Nat.sub_diag.
    + rewrite lookup_app_r by lia. rewrite Hlen.
      by replace (S index - index)%nat with 1%nat by lia.
  - reflexivity.
  - unfold ButtonEditor.moveSection.
    destruct (Z.ltb_spec (Z.of_nat (length sections - 1) + 1) 0); [lia|].
    destruct (Z.leb_spec (Z.of_nat (length sections))
                (Z.of_nat (length sections - 1) + 1)); [done|lia].
  - reflexivity.
  - unfold ButtonEditor.moveDisabled. apply Z.eqb_eq. lia.
Qed.

(** The first of three sections moved down. *)
Lemma moveSection_swaps_neighbours_witness :
  let section n :=
    {| ScriptEditor.type := "slide"; ScriptEditor.duration := None;
       ScriptEditor.narration := Utf16.lit n; ScriptEditor.visual_spec := None |} in
  let sections := [section "a"; section "b"; section "c"] in
  sections !! 0%nat = Some (section "a")
  /\ sections !! 1%nat = Some (section "b")
  /\ ButtonEditor.moveSection sections 0 ButtonEditor.down
     = ScriptEditor.SetSections [section "b"; section "a"; section "c"].
Proof.
  intros section sections.
  assert (Hh : sections !! 0%nat = Some (section "a")) by reflexivity.
  assert (Ht : sections !! 1%nat = Some (section "b")) by reflexivity.
  split; [exact Hh|]. split; [exact Ht|].
  exact (proj1 (moveSection_swaps_neighbours sections 0 _ _ Hh Ht)).
Defined.

(** ** The bullet points of a slide *)

Section BulletFacts.
Import ScriptEditor.

Lemma split_nonempty (sep : Ascii.ascii) (s : string) : JsString.split sep s <> [].
Proof. induction s as [|a s IH]; cbn; [done|]. destruct (Ascii.eqb a sep); [done|]. by destruct (JsString.split sep s). Qed.

Lemma split_without_separator (sep : Ascii.ascii) (s : string) :
  JsString.includes sep s = false -> JsString.split sep s = [s].
Proof.
  induction s as [|a s IH]; cbn; [done|].
  intros [Ha Hs]%orb_false_iff. rewrite Ha. by rewrite IH.
Qed.

Lemma split_at_separator (sep : Ascii.ascii) (s rest : string) :
  JsString.includes sep s = false ->
  JsString.split sep (s +:+ String sep rest) = s :: JsString.split sep rest.
Proof.
  induction s as [|a s IH].
  - intros _. change ("" +:+ String sep rest) with (String sep rest).
    cbn [JsString.split]. by rewrite Ascii.eqb_refl.
  - cbn [JsString.includes]. intros [Ha Hs]%orb_false_iff.
    change (String a s +:+ String sep rest) with (String a (s +:+ String sep rest)).
    cbn [JsString.split]. rewrite Ha. by rewrite IH.
Qed.

Lemma split_pieces_without_separator (sep : Ascii.ascii) (s : string) :
  Forall (fun piece => JsString.includes sep piece = false) (JsString.split sep s).
Proof.
  induction s as [|a s IH]; cbn; [by repeat constructor|].
  destruct (Ascii.eqb a sep) eqn:Ha; [by constructor|].
  destruct (JsString.split sep s) as [|piece pieces] eqn:Hsplit;
    [by apply split_nonempty in Hsplit|].
  apply Forall_cons in IH as [Hp Hps]. constructor; [|done]. cbn. by rewrite Ha.
Qed.

Lemma bulletsOfText_one_line (text : string) : Forall one_line (bulletsOfText text).
Proof.
  unfold bulletsOfText.
  induction (split_pieces_without_separator JsString.newline_char text)
    as [|piece pieces Hp _ IH]; cbn; [constructor|].
  destruct (String.eqb_spec piece ""); cbn; [done|]. by constructor.
Qed.

Lemma bullets_round_trip (bullets : list string) :
  Forall one_line bullets -> bulletsOfText (bulletsText bullets) = bullets.
Proof.
  unfold bulletsOfText, bulletsText, JsString.join.
  induction 1 as [|bullet bullets [Hne Hnl] Hrest IH]; [done|].
  destruct bullets as [|next bullets].
  - cbn [String.concat]. rewrite split_without_separator by done. cbn.
    by destruct (String.eqb_spec bullet "").
  - change (String.concat JsString.newline (bullet :: next :: bullets))
      with (bullet +:+ String JsString.newline_char
                          (String.concat JsString.newline (next :: bullets))).
    rewrite split_at_separator by done. cbn [List.filter].
    destruct (String.eqb_spec bullet ""); [done|]. cbn [negb]. by rewrite IH.
Qed.
End BulletFacts.

(** X13. The bullet text area round-trips: a list of bullets that are each a
    non-empty line is shown as text that reads back as the same list; whatever
    is typed, the bullets stored are non-empty lines, so showing and reading
    them again changes nothing; an empty text area stores no bullet. *)
Theorem bullets_text_round_trip :
  forall (bullets : list string) (text : string),
    (Forall ScriptEditor.one_line bullets ->
     ScriptEditor.bulletsOfText (ScriptEditor.bulletsText bullets) = bullets)
    /\ Forall ScriptEditor.one_line (ScriptEditor.bulletsOfText text)
    /\ ScriptEditor.bulletsOfText
         (ScriptEditor.bulletsText (ScriptEditor.bulletsOfText text))
       = ScriptEditor.bulletsOfText text
    /\ ScriptEditor.bulletsOfText "" = [].
Proof.
  intros bullets text. split; [apply bullets_round_trip|].
  split; [apply bulletsOfText_one_line|]. split; [|reflexivity].
  apply bullets_round_trip, bulletsOfText_one_line.
Qed.

(** Three bullets, and a text with blank lines between two bullets. *)
Lemma bullets_text_round_trip_witness :
  let bullets := ["one"; "two words"; "three"] in
  let text := "one" +:+ JsString.newline +:+ JsString.newline +:+ "two" +:+ JsString.newline in
  Forall ScriptEditor.one_line bullets
  /\ ScriptEditor.bulletsOfText (ScriptEditor.bulletsText bullets) = bullets
  /\ ScriptEditor.bulletsOfText text = ["one"; "two"].
Proof.
  intros bullets text.
  assert (Hb : Forall ScriptEditor.one_line bullets).
  { repeat constructor; discriminate. }
  split; [exact Hb|]. split; [|reflexivity].
  exact (proj1 (bullets_text_round_trip bullets text) Hb).
Defined.


(** ** The workflow navigation *)

Section WorkflowFacts.
Import Types Pipeline Workflow.

Lemma links_to_progress (projectId id : string) (s : ProjectState) :
  links_to id (WorkflowNav projectId (state_name s)) = true
  <-> exists need : nat,
        ["script"; "visuals"; "narration"; "compose"] !! need = Some id
        /\ (need <= progress s)%nat.
Proof.
  unfold links_to, WorkflowNav. cbn [existsb step_id available].
  rewrite !orb_true_iff, !andb_true_iff, !String.eqb_eq. split.
  - intros [[<- Ha]|[[<- Ha]|[[<- Ha]|[[<- Ha]|Hf]]]]; try discriminate.
    + exists 0%nat. split; [reflexivity|lia].
    + exists 1%nat. split; [reflexivity|]. destruct s; cbn in *; try lia; discriminate.
    + exists 2%nat. split; [reflexivity|]. destruct s; cbn in *; try lia; discriminate.
    + exists 3%nat. split; [reflexivity|]. destruct s; cbn in *; try lia; discriminate.
  - intros (need & Hid & Hle).
    destruct need as [|[|[|[|need]]]]; cbn in Hid; try discriminate;
      injection Hid as <-.
    + left. split; reflexivity.
    + right; left. split; [reflexivity|]. destruct s; cbn in *; try lia; reflexivity.
    + right; right; left. split; [reflexivity|].
      destruct s; cbn in *; try lia; reflexivity.
    + right; right; right; left. split; [reflexivity|].
      destruct s; cbn in *; try lia; reflexivity.
Qed.

End WorkflowFacts.

(** X14. The navigation lists the four steps in the order script, visuals,
    narration, compose, and links to the first [progress + 1] of them, at most
    four: the steps that are links always form an initial part of the list,
    the script step is always a link, and a project that is further along
    links to every step an earlier state linked to. *)
Theorem workflow_links_follow_progress :
  forall (projectId : string) (s : Types.ProjectState),
    Workflow.step_id <$> Workflow.WorkflowNav projectId (Workflow.state_name s)
    = ["script"; "visuals"; "narration"; "compose"]
    /\ Workflow.available <$> Workflow.WorkflowNav projectId (Workflow.state_name s)
       = (fun need => bool_decide (need <= Workflow.progress s)%nat) <$> seq 0 4
    /\ (forall (s' : Types.ProjectState) (id : string),
          (Workflow.progress s <= Workflow.progress s')%nat ->
          Workflow.links_to id (Workflow.WorkflowNav projectId (Workflow.state_name s)) = true ->
          Workflow.links_to id (Workflow.WorkflowNav projectId (Workflow.state_name s')) = true).
Proof.
  intros projectId s. split; [reflexivity|]. split.
  - destruct s; reflexivity.
  - intros s' id Hle. rewrite !links_to_progress.
    intros (need & Hid & Hneed). exists need. split; [exact Hid|lia].
Qed.

(** The link to the visuals page of a project with a script stays when the
    narration is done. *)
Lemma workflow_links_follow_progress_witness :
  (Workflow.progress Types.script_done <= Workflow.progress Types.narration_done)%nat
  /\ Workflow.links_to "visuals"
       (Workflow.WorkflowNav "p1" (Workflow.state_name Types.script_done)) = true
  /\ Workflow.links_to "visuals"
       (Workflow.WorkflowNav "p1" (Workflow.state_name Types.narration_done)) = true.
Proof.
  assert (Hle : (Workflow.progress Types.script_done
                 <= Workflow.progress Types.narration_done)%nat) by (cbn; lia).
  assert (Hlink : Workflow.links_to "visuals"
            (Workflow.WorkflowNav "p1" (Workflow.state_name Types.script_done)) = true)
    by reflexivity.
  split; [exact Hle|]. split; [exact Hlink|].
  exact (proj2 (proj2 (workflow_links_follow_progress "p1" Types.script_done))
           Types.narration_done "visuals" Hle Hlink).
Defined.

(** X15. The links of the navigation agree with what the pages behind them
    offer: the visuals step is a link exactly when the visuals page has its
    generate button, the narration step exactly when the narration page has
    its generate button; whenever the compose page shows its panel on the
    project state alone (no status loaded), the compose step is a link. In
    state [composed] the compose step is a link while the compose page, as
    long as no status is loaded, shows the notice instead of its panel. *)
Theorem workflow_links_agree_with_pages :
  forall (projectId : string) (project : Types.Project)
         (isPending isError : bool) (videoUrl : option string),
    let nav := Workflow.WorkflowNav projectId (Workflow.state_name (Types.state project)) in
    (Workflow.links_to "visuals" nav = true
     <-> is_Some (Pipeline.visualsButton (Pipeline.VisualsBody isPending isError project)))
    /\ (Workflow.links_to "narration" nav = true
        <-> is_Some (Pipeline.generateButton (Pipeline.NarrationBody isPending isError project)))
    /\ (is_Some (Pipeline.panel (Pipeline.ComposeBody None isPending isError videoUrl project)) ->
        Workflow.links_to "compose" nav = true)
    /\ (Types.state project = Types.composed ->
        Workflow.links_to "compose" nav = true
        /\ Pipeline.ComposeBody None isPending isError videoUrl project
           = {| Pipeline.narrationMissingNotice := true; Pipeline.panel := None |}).
Proof.
  intros projectId project isPending isError videoUrl nav. subst nav.
  unfold Pipeline.VisualsBody, Pipeline.NarrationBody, Pipeline.ComposeBody,
    Pipeline.hasScript, Pipeline.hasVisuals, Pipeline.canCompose.
  cbn [Pipeline.visualsButton Pipeline.generateButton Pipeline.panel].
  destruct (Types.state project) eqn:Hstate; cbn;
    (split; [|split; [|split]]);
    try (split; intros H; first [reflexivity | discriminate | by eexists | by destruct H]);
    try (intros H; first [reflexivity | discriminate | by destruct H]).
Qed.

(** A composed project whose compose status is not loaded. *)
Lemma workflow_links_agree_with_pages_witness :
  let project := {| Types.project_ident := "p1"; Types.theme := "Rust";
                    Types.state := Types.composed; Types.script := None;
                    Types.duration_target := None;
                    Types.project_created_at := "2025-01-01";
                    Types.project_updated_at := "2025-01-02";
                    Types.sections := [] |} in
  Types.state project = Types.composed
  /\ Workflow.links_to "compose"
       (Workflow.WorkflowNav "p1" (Workflow.state_name (Types.state project))) = true
  /\ Pipeline.ComposeBody None false false None project
     = {| Pipeline.narrationMissingNotice := true; Pipeline.panel := None |}.
Proof.
  intros project.
  assert (Hstate : Types.state project = Types.composed) by reflexivity.
  split; [exact Hstate|].
  pose proof (workflow_links_agree_with_pages "p1" project false false None) as H.
  cbv zeta in H. destruct H as (_ & _ & _ & Hcomposed).
  exact (Hcomposed Hstate).
Defined.


(** ** The delete button with confirmation *)

Section DeleteConfirmFacts.
Import DeleteConfirm.

Lemma clicks_bound (events : list (bool * Button)) (showConfirm : bool) :
  (2 * snd (clicks showConfirm events) + Nat.b2n (fst (clicks showConfirm events))
   <= length events + Nat.b2n showConfirm)%nat.
Proof.
  revert showConfirm.
  induction events as [|[isPending b] events IH]; intros showConfirm; [cbn; lia|].
  cbn [clicks length].
  destruct (click showConfirm (isPending, b)) as [next calls] eqn:Hclick.
  specialize (IH next).
  destruct (clicks next events) as [final more]. cbn [fst snd] in *.
  destruct showConfirm, isPending, b; cbn in Hclick;
    injection Hclick as <- <-; cbn in *; lia.
Qed.

Lemma clicks_pending (events : list (bool * Button)) (showConfirm : bool) :
  Forall (fun event => fst event = true) events ->
  snd (clicks showConfirm events) = 0%nat.
Proof.
  intros Hall. revert showConfirm.
  induction Hall as [|[isPending b] events Hp _ IH]; intros showConfirm; [reflexivity|].
  cbn in Hp. subst isPending. cbn [clicks].
  destruct (click showConfirm (true, b)) as [next calls] eqn:Hclick.
  specialize (IH next). destruct (clicks next events) as [final more].
  cbn [snd] in *. subst more.
  destruct showConfirm, b; cbn in Hclick; injection Hclick as <- <-; reflexivity.
Qed.

End DeleteConfirmFacts.

(** X16. A delete takes two clicks: after any sequence of clicks on the
    buttons of the component, starting with the confirmation closed, twice
    the number of [onConfirm] calls, plus one when the confirmation is left
    open, is at most the number of clicks. While the delete request is
    pending throughout, no click calls [onConfirm]. *)
Theorem delete_takes_two_clicks :
  forall (events : list (bool * DeleteConfirm.Button)),
    (2 * snd (DeleteConfirm.clicks false events)
     + Nat.b2n (fst (DeleteConfirm.clicks false events)) <= length events)%nat
    /\ (forall showConfirm : bool,
          Forall (fun event => fst event = true) events ->
          snd (DeleteConfirm.clicks showConfirm events) = 0%nat).
Proof.
  intros events. split.
  - pose proof (clicks_bound events false) as H. cbn [Nat.b2n] in H. lia.
  - intros showConfirm. apply clicks_pending.
Qed.

(** Two clicks while the delete request is pending. *)
Lemma delete_takes_two_clicks_witness :
  let events := [(true, DeleteConfirm.OpenButton); (true, DeleteConfirm.ConfirmButton)] in
  Forall (fun event => fst event = true) events
  /\ snd (DeleteConfirm.clicks false events) = 0%nat.
Proof.
  intros events.
  assert (Hpending : Forall (fun event : bool * DeleteConfirm.Button => fst event = true)
                       events)
    by (repeat constructor).
  split; [exact Hpending|].
  exact (proj2 (delete_takes_two_clicks events) false Hpending).
Defined.

(** ** The video URL of the compose page *)

(** X17. Over any sequence of compose requests, answered or failed, the
    compose page holds the URL of the last answer that carried a non-empty
    one, and its earlier URL when there was none. So a URL the page holds is
    never lost, and a page that started without one never holds the empty
    string. *)
Theorem composeRuns_holds_last_url :
  forall (videoUrl : option string) (results : list (option Pipeline.ComposeResponse)),
    Pipeline.composeRuns videoUrl results
    = default videoUrl
        (last (List.filter Types.truthy
                 ((fun result => result ≫= Pipeline.video_url) <$> results)))
    /\ (Types.truthy videoUrl = true ->
        Types.truthy (Pipeline.composeRuns videoUrl results) = true)
    /\ Pipeline.composeRuns None results <> Some "".
Proof.
  assert (Hlast : forall videoUrl results,
    Pipeline.composeRuns videoUrl results
    = default videoUrl
        (last (List.filter Types.truthy
                 ((fun result => result ≫= Pipeline.video_url) <$> results)))).
  { intros videoUrl results. revert videoUrl. unfold Pipeline.composeRuns.
    induction results as [|result results IH]; intros videoUrl; [reflexivity|].
    cbn [foldl fmap list_fmap List.filter]. rewrite IH.
    unfold Pipeline.handleCompose.
    destruct result as [r|]; cbn [mbind option_bind]; [|reflexivity].
    destruct (Types.truthy (Pipeline.video_url r)); [|reflexivity].
    rewrite last_cons.
    by destruct (last _). }
  assert (Hkeep : forall videoUrl results,
    Types.truthy videoUrl = true ->
    Types.truthy (Pipeline.composeRuns videoUrl results) = true).
  { intros videoUrl results. revert videoUrl. unfold Pipeline.composeRuns.
    induction results as [|result results IH]; intros videoUrl Hurl; [exact Hurl|].
    cbn [foldl]. apply IH. unfold Pipeline.handleCompose.
    destruct result as [r|]; [|exact Hurl].
    by destruct (Types.truthy (Pipeline.video_url r)) eqn:Hr. }
  intros videoUrl results. split; [apply Hlast|]. split; [apply Hkeep|].
  rewrite Hlast.
  destruct (last _) as [url|] eqn:Hl; cbn [default]; [|discriminate].
  apply last_Some_elem_of in Hl. apply list_elem_of_In, filter_In in Hl.
  destruct Hl as [_ Hl]. unfold id. intros Heq. rewrite Heq in Hl. discriminate.
Qed.

(** A failed request and an answer without a URL after a successful one. *)
Lemma composeRuns_holds_last_url_witness :
  let answer := {| Pipeline.response_status := "completed"; Pipeline.video_url := None;
                   Pipeline.response_duration := 0%float;
                   Pipeline.response_sections_count := 0;
                   Pipeline.response_estimated_size := 0%float;
                   Pipeline.message := None |} in
  Types.truthy (Some "/videos/p1.mp4") = true
  /\ Types.truthy (Pipeline.composeRuns (Some "/videos/p1.mp4") [None; Some answer]) = true.
Proof.
  intros answer.
  assert (Hurl : Types.truthy (Some "/videos/p1.mp4") = true) by reflexivity.
  split; [exact Hurl|].
  exact (proj1 (proj2 (composeRuns_holds_last_url (Some "/videos/p1.mp4")
                         [None; Some answer])) Hurl).
Defined.

(** ** The values of the tables and of the pages *)

Section SchemaFacts.
Import Types Preferences Schema.

Lemma fill_category_offered (events : list FormEvent) (f f' : NewPref) :
  form_category f ∈ category_options ->
  fill f events = Some f' ->
  form_category f' ∈ category_options.
Proof.
  revert f. induction events as [|e events IH]; intros f Hf; cbn [fill].
  - by intros [= <-].
  - destruct (offered f e) eqn:He; [|discriminate].
    apply IH. destruct e; cbn in *; try exact Hf.
    by apply bool_decide_eq_true in He.
Qed.

End SchemaFacts.

(** X18. The tables and the front end name the same values. A string passes
    [projects_state_check] exactly when it is a [ProjectState], and passes
    [sections_type_check] exactly when it is a [SectionType], which is exactly
    when the type menu of a section card ([SECTION_TYPES]) offers it; distinct
    states and types are distinct strings. The section type of a preference
    is held to the same values as the type of a section, and the category of
    a preference to the same values as the category of a correction. *)
Theorem tables_and_types_agree :
  (forall state : string,
     Schema.projects_state_check state = true
     <-> exists s : Types.ProjectState, state = Workflow.state_name s)
  /\ (forall type : string,
        Schema.sections_type_check type = true
        <-> exists t : Types.SectionType, type = Schema.type_name t)
  /\ (forall type : string,
        type ∈ Schema.SECTION_TYPES <-> Schema.sections_type_check type = true)
  /\ (forall s s' : Types.ProjectState,
        Workflow.state_name s = Workflow.state_name s' -> s = s')
  /\ (forall t t' : Types.SectionType, Schema.type_name t = Schema.type_name t' -> t = t')
  /\ (forall (r : Preferences.PreferenceRow) (type : string),
        Preferences.section_type r = Some type ->
        Preferences.preferences_section_type_check r = Schema.sections_type_check type)
  /\ (forall r : Preferences.PreferenceRow,
        Preferences.preferences_category_check r
        = Schema.corrections_category_check (Preferences.category r)).
Proof.
  split; [|split; [|split; [|split; [|split; [|split]]]]].
  - intros state. unfold Schema.projects_state_check.
    rewrite bool_decide_eq_true, !elem_of_cons, elem_of_nil. split.
    + intros [->|[->|[->|[->|[->|[]]]]]];
        [by exists Types.init | by exists Types.script_done
        | by exists Types.visuals_done | by exists Types.narration_done
        | by exists Types.composed].
    + intros [[] ->]; cbn; tauto.
  - intros type. unfold Schema.sections_type_check.
    rewrite bool_decide_eq_true, !elem_of_cons, elem_of_nil. split.
    + intros [->|[->|[->|[->|[->|[->|[]]]]]]];
        [by exists Types.title | by exists Types.slide | by exists Types.code
        | by exists Types.code_typing | by exists Types.diagram
        | by exists Types.summary].
    + intros [[] ->]; cbn; tauto.
  - intros type. unfold Schema.sections_type_check, Schema.SECTION_TYPES.
    by rewrite bool_decide_eq_true.
  - intros [] []; cbn; intros H; first [reflexivity | discriminate].
  - intros [] []; cbn; intros H; first [reflexivity | discriminate].
  - intros r type Hr. unfold Preferences.preferences_section_type_check. by rewrite Hr.
  - reflexivity.
Qed.

(** The state [composed] passes the check of the [projects] table. *)
Lemma tables_and_types_agree_witness :
  (exists s : Types.ProjectState, "composed" = Workflow.state_name s)
  /\ Schema.projects_state_check "composed" = true.
Proof.
  assert (Hstate : exists s : Types.ProjectState, "composed" = Workflow.state_name s)
    by (exists Types.composed; reflexivity).
  split; [exact Hstate|].
  exact (proj2 (proj1 tables_and_types_agree "composed") Hstate).
Defined.

(** X19. Whatever the user does in the manual creation form, a row that
    stores the category, the scope and the section type of the submitted
    request as they are sent passes every constraint of the [preferences]
    table; and a section type the form sends is one a section can have. *)
Theorem form_request_passes_table_checks :
  forall (events : list Preferences.FormEvent) (f : Preferences.NewPref)
         (data : Preferences.CreatePreferenceData) (r : Preferences.PreferenceRow),
    Preferences.fill Preferences.initialNewPref events = Some f ->
    Preferences.handleCreate f = Preferences.createPreference data ->
    Preferences.category r = Preferences.data_category data ->
    Some (Preferences.scope r) = Preferences.data_scope data ->
    Preferences.section_type r = Preferences.data_section_type data ->
    Preferences.table_accepts r = true
    /\ (forall type : string,
          Preferences.data_section_type data = Some type ->
          type ∈ Schema.SECTION_TYPES).
Proof.
  intros events f data r Hfill Hcreate Hcat Hscope Htype.
  assert (Hc : Preferences.form_category Preferences.initialNewPref
               ∈ Preferences.category_options)
    by (apply (bool_decide_eq_true_1 _); reflexivity).
  apply (fill_category_offered events _ f) in Hc; [|exact Hfill].
  pose proof (fill_within_options events _ _ initialNewPref_within_options Hfill)
    as [Hs Ht].
  unfold Preferences.handleCreate in Hcreate. injection Hcreate as <-.
  cbn in Hcat, Hscope, Htype. injection Hscope as Hscope.
  assert (Hsent : forall type : string,
    (if String.eqb (Preferences.form_section_type f) "" then None
     else Some (Preferences.form_section_type f)) = Some type ->
    type ∈ Schema.SECTION_TYPES).
  { intros type. destruct (String.eqb_spec (Preferences.form_section_type f) "") as [He|Hne];
      [discriminate|]. intros [= <-].
    unfold Preferences.section_type_options in Ht. unfold Schema.SECTION_TYPES.
    rewrite !elem_of_cons, elem_of_nil in *. tauto. }
  split; [|exact Hsent].
  unfold Preferences.table_accepts, Preferences.preferences_category_check,
    Preferences.preferences_scope_check, Preferences.preferences_section_type_check.
  rewrite Hcat, Hscope, Htype, !andb_true_iff, !bool_decide_eq_true.
  split; [split|].
  - exact Hc.
  - unfold Preferences.scope_options in Hs.
    rewrite !elem_of_cons, elem_of_nil in *. tauto.
  - cbn [Preferences.data_section_type].
    destruct (String.eqb _ "") eqn:He; [reflexivity|].
    apply bool_decide_eq_true. exact (Hsent _ eq_refl).
Qed.

Lemma form_request_passes_table_checks_witness :
  let f := {| Preferences.form_description := "dark code blocks";
              Preferences.form_category := "technical";
              Preferences.form_scope := "section_type";
              Preferences.form_section_type := "code";
              Preferences.form_confidence := 0.7 |} in
  let data := {| Preferences.data_description := "dark code blocks";
                 Preferences.data_category := "technical";
                 Preferences.data_scope := Some "section_type";
                 Preferences.data_section_type := Some "code";
                 Preferences.data_confidence := Some 0.7%float |} in
  let r := {| Preferences.preference_id := "p1";
              Preferences.description := "dark code blocks";
              Preferences.category := "technical";
              Preferences.scope := "section_type";
              Preferences.section_type := Some "code";
              Preferences.project_id := None;
              Preferences.confidence := Some 0.7%float;
              Preferences.source_corrections := None;
              Preferences.is_active := Some true;
              Preferences.prompt_version := Some 1;
              Preferences.created_at := "2025-01-01";
              Preferences.updated_at := "2025-01-01" |} in
  Preferences.fill Preferences.initialNewPref
    [Preferences.ChangeDescription "dark code blocks";
     Preferences.ChangeCategory "technical";
     Preferences.ChangeScope "section_type";
     Preferences.ChangeSectionType "code"] = Some f
  /\ Preferences.table_accepts r = true
  /\ (forall type : string,
        Preferences.data_section_type data = Some type ->
        type ∈ Schema.SECTION_TYPES).
Proof.
  intros f data r.
  assert (Hfill : Preferences.fill Preferences.initialNewPref
    [Preferences.ChangeDescription "dark code blocks";
     Preferences.ChangeCategory "technical";
     Preferences.ChangeScope "section_type";
     Preferences.ChangeSectionType "code"] = Some f) by reflexivity.
  split; [exact Hfill|].
  exact (form_request_passes_table_checks _ f data r Hfill eq_refl eq_refl eq_refl eq_refl).
Defined.


(** ** Trimmed strings *)

Section TrimFacts.
Import Utf16.

Lemma trimStart_clean (s : t) (c : N) (rest : t) :
  trimStart s = c :: rest -> isWhiteSpace c = false.
Proof.
  induction s as [|a s IH]; cbn [trimStart]; [discriminate|].
  destruct (isWhiteSpace a) eqn:Ha; [exact IH|].
  intros [= <- _]. exact Ha.
Qed.

Lemma trimStart_fix (s : t) :
  (forall c rest, s = c :: rest -> isWhiteSpace c = false) -> trimStart s = s.
Proof.
  destruct s as [|a s]; [reflexivity|]. intros H. cbn [trimStart].
  by rewrite (H a s eq_refl).
Qed.

Lemma trimStart_suffix (s : t) : exists pre, s = pre ++ trimStart s.
Proof.
  induction s as [|a s [pre IH]]; [by exists []|].
  cbn [trimStart]. destruct (isWhiteSpace a).
  - exists (a :: pre). cbn [app]. by rewrite <- IH.
  - by exists [].
Qed.


(** The string that [trim] returns starts with no white space. *)
Lemma trim_clean_start (s : t) (c : N) (rest : t) :
  trim s = c :: rest -> isWhiteSpace c = false.
Proof.
  unfold trim. intros Hrev.
  destruct (trimStart_suffix (rev (trimStart s))) as [pre Hpre].
  apply (f_equal (@rev N)) in Hpre.
  rewrite rev_involutive, rev_app_distr, Hrev in Hpre.
  exact (trimStart_clean s c (rest ++ rev pre) Hpre).
Qed.

(** The string that [trim] returns ends with no white space. *)
Lemma trim_clean_end (s : t) (c : N) (init : t) :
  trim s = init ++ [c] -> isWhiteSpace c = false.
Proof.
  unfold trim. intros Hrev. apply (f_equal (@rev N)) in Hrev.
  rewrite rev_involutive, rev_unit in Hrev.
  exact (trimStart_clean _ _ _ Hrev).
Qed.

Lemma trim_fix (s : t) :
  (forall c rest, s = c :: rest -> isWhiteSpace c = false) ->
  (forall c init, s = init ++ [c] -> isWhiteSpace c = false) ->
  trim s = s.
Proof.
  intros Hstart Hend. unfold trim. rewrite (trimStart_fix s Hstart).
  rewrite trimStart_fix; [apply rev_involutive|].
  intros c rest Hrev. apply (Hend c (rev rest)).
  apply (f_equal (@rev N)) in Hrev. by rewrite rev_involutive in Hrev.
Qed.

Lemma trim_idempotent (s : t) : trim (trim s) = trim s.
Proof. apply trim_fix; [apply trim_clean_start|apply trim_clean_end]. Qed.


(** The trimmed halves of a split. *)
Lemma trimmed (s : t) :
  trim (trim s) = trim s
  /\ (forall c rest, trim s = c :: rest -> isWhiteSpace c = false)
  /\ (forall c init, trim s = init ++ [c] -> isWhiteSpace c = false).
Proof.
  split; [apply trim_idempotent|]. split; [apply trim_clean_start|apply trim_clean_end].
Qed.

End TrimFacts.



(** X21. A split that goes through puts two sections where the one was, and
    the narration of each starts and ends with no white space and is left
    unchanged by [trim]; every other section stays what it was. *)
Theorem split_halves_are_trimmed :
  forall (sections newSections : list ScriptEditor.ScriptSectionData)
         (index : nat) (position : Z),
    ScriptEditor.splitSectionAtPosition sections index position
    = ScriptEditor.SetSections newSections ->
    length newSections = S (length sections)
    /\ (forall i, (i < index)%nat -> newSections !! i = sections !! i)
    /\ (forall i, (index < i)%nat -> newSections !! S i = sections !! i)
    /\ (forall i half,
          (i = index \/ i = S index) ->
          newSections !! i = Some half ->
          Utf16.trim (ScriptEditor.narration half) = ScriptEditor.narration half
          /\ (forall c rest, ScriptEditor.narration half = c :: rest ->
                             Utf16.isWhiteSpace c = false)
          /\ (forall c init, ScriptEditor.narration half = init ++ [c] ->
                             Utf16.isWhiteSpace c = false)).
Proof.
  intros sections newSections index position Hsplit.
  destruct (sections !! index) as [section|] eqn:Hs;
    [|unfold ScriptEditor.splitSectionAtPosition in Hsplit; rewrite Hs in Hsplit;
      discriminate].
  pose proof (lookup_lt_Some _ _ _ Hs) as Hi.
  assert (Hpos : 0 < position < Z.of_nat (Utf16.length (ScriptEditor.narration section))).
  { unfold ScriptEditor.splitSectionAtPosition in Hsplit. rewrite Hs in Hsplit.
    destruct (Z.leb_spec position 0); [discriminate|].
    destruct (Z.leb_spec (Z.of_nat (Utf16.length (ScriptEditor.narration section)))
                position); [discriminate|]. lia. }
  rewrite (split_applies sections index position section Hs Hpos) in Hsplit.
  injection Hsplit as <-.
  assert (Hlen : length (take index sections) = index) by (rewrite length_take; lia).
  split; [|split; [|split]].
  - rewrite length_app, length_take. cbn [app length]. rewrite length_drop. lia.
  - intros i Hlt. rewrite lookup_app_l by lia. apply lookup_take_lt. lia.
  - intros i Hlt. rewrite lookup_app_r by lia. rewrite Hlen.
    replace (S i - index)%nat with (S (S (i - S index))) by lia.
    cbn [app]. rewrite !lookup_cons, lookup_drop. f_equal. lia.
  - intros i half Hhalf. rewrite lookup_app_r by lia. rewrite Hlen.
    destruct Hhalf as [->| ->].
    + rewrite Nat.sub_diag. intros [= <-]. cbn [ScriptEditor.narration].
      apply trimmed.
    + replace (S index - index)%nat with 1%nat by lia. intros [= <-].
      cbn [ScriptEditor.narration]. apply trimmed.
Qed.

(** Splitting a narration at the first of the two ideographic spaces
    (U+3000) in its middle: neither half keeps one. *)
Lemma split_halves_are_trimmed_witness :
  let section := {| ScriptEditor.type := "slide"; ScriptEditor.duration := Some 10%float;
                    ScriptEditor.narration := Utf16.lit "はじめに　　つぎに";
                    ScriptEditor.visual_spec := None |} in
  let newSections :=
    [ {| ScriptEditor.type := "slide"; ScriptEditor.duration := Some 10%float;
         ScriptEditor.narration := Utf16.lit "はじめに";
         ScriptEditor.visual_spec := None |};
      {| ScriptEditor.type := "slide"; ScriptEditor.duration := Some 0%float;
         ScriptEditor.narration := Utf16.lit "つぎに";
         ScriptEditor.visual_spec := Some ∅ |} ] in
  ScriptEditor.splitSectionAtPosition [section] 0 5 = ScriptEditor.SetSections newSections
  /\ length newSections = 2%nat.
Proof.
  intros section newSections.
  assert (Hsplit : ScriptEditor.splitSectionAtPosition [section] 0 5
                   = ScriptEditor.SetSections newSections) by (vm_compute; reflexivity).
  split; [exact Hsplit|].
  exact (proj1 (split_halves_are_trimmed [section] newSections 0 5 Hsplit)).
Defined.
